(** * bibtexParser: a shallow embedding of [src/bibtexParser.py]

    The parser object is a record of its four mutable attributes; every
    method is a function from the parser (and, where the method reaches
    outside the process, a [world]) to an [outcome] that either returns
    or raises, in both cases together with the parser as the method left
    it.  The two regular expressions of the source are values of a small
    regex syntax, run by a backtracking matcher that follows the search
    loop of Python's [re] module.

    Text is modelled over 7-bit ASCII, where Python's Unicode-aware
    [\w], [\s], [str.strip] and [str.lower] coincide with the classes
    defined below.  Calls to [logging] neither touch the parser's
    attributes nor alter control flow and are left out. *)

From Stdlib Require Import String Ascii Bool Arith Lia List.
From stdpp Require Import base tactics list.
Import ListNotations.

Local Open Scope string_scope.
Local Open Scope nat_scope.
Local Open Scope list_scope.

Infix "+:+" := String.append (at level 60, right associativity).

(** ** Characters and strings as Python sees them *)

Module Py.

Definition code (c : ascii) : nat := nat_of_ascii c.

Definition between (lo hi : nat) (c : ascii) : bool :=
  (lo <=? code c) && (code c <=? hi).

Definition is_upper : ascii -> bool := between 65 90.
Definition is_lower : ascii -> bool := between 97 122.
Definition is_digit : ascii -> bool := between 48 57.

(** [[A-Za-z]] *)
Definition is_alpha (c : ascii) : bool := is_upper c || is_lower c.

(** [\w] on ASCII: letters, digits and the underscore. *)
Definition is_word (c : ascii) : bool :=
  is_alpha c || is_digit c || (code c =? 95).

(** [\s] and the default strip set of [str.strip] on ASCII:
    TAB, LF, VT, FF, CR, FS, GS, RS, US and SPACE. *)
Definition is_space (c : ascii) : bool :=
  between 9 13 c || between 28 32 c.

Definition lower_char (c : ascii) : ascii :=
  if is_upper c then ascii_of_nat (code c + 32) else c.

(** [str.lower] *)
Fixpoint lower (s : string) : string :=
  match s with
  | EmptyString => EmptyString
  | String c s' => String (lower_char c) (lower s')
  end.

Fixpoint lstrip (s : string) : string :=
  match s with
  | EmptyString => EmptyString
  | String c s' => if is_space c then lstrip s' else s
  end.

Fixpoint rstrip (s : string) : string :=
  match s with
  | EmptyString => EmptyString
  | String c s' =>
      match rstrip s' with
      | EmptyString => if is_space c then EmptyString else String c EmptyString
      | r => String c r
      end
  end.

(** [str.strip] with no argument *)
Definition strip (s : string) : string := rstrip (lstrip s).

(** Truthiness of a [str]: the empty string is false. *)
Definition truthy (s : string) : bool :=
  match s with EmptyString => false | String _ _ => true end.

(** [s.endswith(suffix)] *)
Fixpoint endswith (s suffix : string) : bool :=
  (s =? suffix)%string ||
  match s with
  | EmptyString => false
  | String _ s' => endswith s' suffix
  end.

(** The characters of a string, each as a one-character string: what
    iterating over a [str] yields. *)
Fixpoint chars (s : string) : list string :=
  match s with
  | EmptyString => []
  | String c s' => String c EmptyString :: chars s'
  end.

End Py.

(** ** The fragment of [re] the source uses

    Character sets, concatenation, ordered alternation, capturing groups
    and the greedy repetitions [*] and [+] over a character set. *)

Module Re.

Inductive charset : Type :=
| CChar (c : ascii)          (* a literal character *)
| CAlpha                     (* [A-Za-z] *)
| CWord                      (* \w *)
| CSpace                     (* \s *)
| CNot (c : ascii).          (* [^c] *)

Definition mem (cs : charset) (c : ascii) : bool :=
  match cs with
  | CChar d => Ascii.eqb c d
  | CAlpha => Py.is_alpha c
  | CWord => Py.is_word c
  | CSpace => Py.is_space c
  | CNot d => negb (Ascii.eqb c d)
  end.

Inductive regex : Type :=
| Eps
| Chr (cs : charset)
| Star (cs : charset)
| Plus (cs : charset)
| Seq (r1 r2 : regex)
| Alt (r1 r2 : regex)
| Group (n : nat) (r : regex).

(** Number of capturing groups: groups are numbered from 1. *)
Fixpoint ngroups (r : regex) : nat :=
  match r with
  | Eps | Chr _ | Star _ | Plus _ => 0
  | Seq r1 r2 | Alt r1 r2 => Nat.max (ngroups r1) (ngroups r2)
  | Group n r1 => Nat.max n (ngroups r1)
  end.

(** Captures of the current attempt, most recent first. *)
Definition caps : Type := list (nat * string).

Fixpoint group (n : nat) (cs : caps) : option string :=
  match cs with
  | [] => None
  | (m, s) :: cs' => if n =? m then Some s else group n cs'
  end.

(** The first [n] characters of [s]. *)
Fixpoint take_str (n : nat) (s : string) : string :=
  match n, s with
  | S n', String c s' => String c (take_str n' s')
  | _, _ => EmptyString
  end.

(** What was consumed between the suffix [s] and its suffix [s']. *)
Definition consumed (s s' : string) : string :=
  take_str (String.length s - String.length s') s.

(** Greedy repetition: the longest run first, then shorter ones. *)
Fixpoint star_k {A} (p : ascii -> bool) (s : string)
         (k : string -> option A) : option A :=
  match s with
  | String c s' =>
      if p c then
        match star_k p s' k with
        | Some x => Some x
        | None => k s
        end
      else k s
  | EmptyString => k s
  end.

(** The backtracking matcher, in continuation-passing style: [k] is
    given the rest of the subject and the captures so far, and a
    [None] from it makes the matcher try its next choice. *)
Fixpoint run {A} (r : regex) (s : string) (cs : caps)
         (k : string -> caps -> option A) : option A :=
  match r with
  | Eps => k s cs
  | Chr set =>
      match s with
      | String c s' => if mem set c then k s' cs else None
      | EmptyString => None
      end
  | Star set => star_k (mem set) s (fun s' => k s' cs)
  | Plus set =>
      match s with
      | String c s' =>
          if mem set c then star_k (mem set) s' (fun s'' => k s'' cs)
          else None
      | EmptyString => None
      end
  | Seq r1 r2 => run r1 s cs (fun s' cs' => run r2 s' cs' k)
  | Alt r1 r2 =>
      match run r1 s cs k with
      | Some x => Some x
      | None => run r2 s cs k
      end
  | Group n r1 =>
      run r1 s cs (fun s' cs' => k s' ((n, consumed s s') :: cs'))
  end.

(** One attempt at the start of [s].  With [must_advance] an empty
    match is refused and the matcher backtracks.  The result is the
    length of the match and its captures. *)
Definition match_at (r : regex) (s : string) (must_advance : bool)
  : option (nat * caps) :=
  run r s []
    (fun s' cs =>
       if must_advance && (String.length s' =? String.length s) then None
       else Some (String.length s - String.length s', cs)).

(** The matches of a scan, each with the text between the end of the
    previous match and its start, and the text after the last one. *)
Inductive scanned : Type :=
| Tail (rest : string)
| Hit (before : string) (matched : string) (cs : caps) (next : scanned).

(** The search loop shared by [findall] and [split]: leftmost match
    from the current position; after an empty match the next search
    starts at the same position and must advance.  [skip] counts the
    characters of the current match still to be passed, [acc] is the
    text since the end of the previous match. *)
Fixpoint scan (r : regex) (s : string) (skip : nat) (acc : string)
  : scanned :=
  match skip with
  | S n =>
      match s with
      | String _ s' => scan r s' n acc
      | EmptyString => Tail acc
      end
  | O =>
      match match_at r s false with
      | Some (S n, cs) =>
          match s with
          | String _ s' => Hit acc (take_str (S n) s) cs (scan r s' n EmptyString)
          | EmptyString => Tail acc
          end
      | Some (O, cs) =>
          Hit acc EmptyString cs
            match match_at r s true, s with
            | Some (S n, cs'), String _ s' =>
                Hit EmptyString (take_str (S n) s) cs' (scan r s' n EmptyString)
            | _, String c s' => scan r s' 0 (String c EmptyString)
            | _, EmptyString => Tail EmptyString
            end
      | None =>
          match s with
          | String c s' => scan r s' 0 (acc +:+ String c EmptyString)
          | EmptyString => Tail acc
          end
      end
  end.

(** Group [n] of a match for [findall]: a group that did not take
    part reads as the empty string. *)
Definition group_or_empty (cs : caps) (n : nat) : string :=
  match group n cs with Some s => s | None => EmptyString end.

(** What iterating over one item of [re.findall] yields: with two or
    more groups the item is the tuple of the groups; with one group it
    is that group's text and with none the whole match, and iterating
    over a [str] yields its characters. *)
Definition findall_item (r : regex) (matched : string) (cs : caps)
  : list string :=
  match ngroups r with
  | 0 => Py.chars matched
  | 1 => Py.chars (group_or_empty cs 1)
  | n => map (group_or_empty cs) (seq 1 n)
  end.

Fixpoint findall_of (r : regex) (sc : scanned) : list (list string) :=
  match sc with
  | Tail _ => []
  | Hit _ m cs next => findall_item r m cs :: findall_of r next
  end.

(** [re.findall(pattern, s)], each item as the sequence of its parts *)
Definition findall (r : regex) (s : string) : list (list string) :=
  findall_of r (scan r s 0 EmptyString).

(** [re.split]: the text before each match, then the groups of the
    match ([None] for a group that did not take part), and the text
    after the last match. *)
Fixpoint split_of (r : regex) (sc : scanned) : list (option string) :=
  match sc with
  | Tail rest => [Some rest]
  | Hit before _ cs next =>
      Some before :: map (fun n => group n cs) (seq 1 (ngroups r))
        ++ split_of r next
  end.

Definition split (r : regex) (s : string) : list (option string) :=
  split_of r (scan r s 0 EmptyString).

End Re.

(** [re.compile(r"(@[A-Za-z]+{)")] *)
Definition pattern_chunk_split : Re.regex :=
  Re.Group 1
    (Re.Seq (Re.Chr (Re.CChar "@"))
       (Re.Seq (Re.Plus Re.CAlpha) (Re.Chr (Re.CChar "{")))).

(** The default pattern of [parse_metadata]: a key [\w+] in group 1,
    then [\s*=\s*], then one of three alternatives: a value between
    double quotes (character 34) free of double quotes, in group 2; a
    value between braces free of the closing brace, in group 3; a bare
    word [\w+], in group 4. *)
Definition default_pattern : Re.regex :=
  Re.Seq (Re.Group 1 (Re.Plus Re.CWord))
    (Re.Seq (Re.Star Re.CSpace)
       (Re.Seq (Re.Chr (Re.CChar "="))
          (Re.Seq (Re.Star Re.CSpace)
             (Re.Alt
                (Re.Seq (Re.Chr (Re.CChar "034"))
                   (Re.Seq (Re.Group 2 (Re.Star (Re.CNot "034")))
                      (Re.Chr (Re.CChar "034"))))
                (Re.Alt
                   (Re.Seq (Re.Chr (Re.CChar "{"))
                      (Re.Seq (Re.Group 3 (Re.Star (Re.CNot "}")))
                         (Re.Chr (Re.CChar "}"))))
                   (Re.Group 4 (Re.Plus Re.CWord))))))).

(** ** Python values held by the parser *)

(** A field value: a [str], or [None] where a DOI lookup failed. *)
Inductive value : Type :=
| VStr (s : string)
| VNone.

(** A [dict] with [str] keys, in insertion order, keys unique. *)
Definition pydict : Type := list (string * value).

(** [k in d] *)
Fixpoint dict_mem (k : string) (d : pydict) : bool :=
  match d with
  | [] => false
  | (k', _) :: d' => (k =? k')%string || dict_mem k d'
  end.

(** [d.get(k)]; where the source writes [d[k]] the key is known to be
    present. *)
Fixpoint dict_get (k : string) (d : pydict) : option value :=
  match d with
  | [] => None
  | (k', v) :: d' => if (k =? k')%string then Some v else dict_get k d'
  end.

(** [d[k] = v]: a present key keeps its place and takes the new value,
    a new key goes last. *)
Fixpoint dict_set (k : string) (v : value) (d : pydict) : pydict :=
  match d with
  | [] => [(k, v)]
  | (k', v') :: d' =>
      if (k =? k')%string then (k', v) :: d' else (k', v') :: dict_set k v d'
  end.

(** An element of [parsed_entries]: a dict, or [None] where
    [_parse_metadata] caught [re.error]. *)
Definition entry : Type := option pydict.


(** ** [json.dumps(entries, indent=4)] *)

Module Json.

Definition dq : string := String "034" EmptyString.
Definition nl : string := String "010" EmptyString.

Definition hex_digit (n : nat) : ascii :=
  ascii_of_nat (if n <? 10 then 48 + n else 87 + n).

(** [ensure_ascii] escaping of one character *)
Definition escape_char (c : ascii) : string :=
  let n := Py.code c in
  if n =? 34 then "\" +:+ dq
  else if n =? 92 then "\\"
  else if n =? 8 then "\b"
  else if n =? 12 then "\f"
  else if n =? 10 then "\n"
  else if n =? 13 then "\r"
  else if n =? 9 then "\t"
  else if (32 <=? n) && (n <=? 126) then String c EmptyString
  else "\u00" +:+ String (hex_digit (n / 16))
                   (String (hex_digit (n mod 16)) EmptyString).

Fixpoint escape (s : string) : string :=
  match s with
  | EmptyString => EmptyString
  | String c s' => escape_char c +:+ escape s'
  end.

Definition quote (s : string) : string := dq +:+ escape s +:+ dq.

Definition of_value (v : value) : string :=
  match v with
  | VStr s => quote s
  | VNone => "null"
  end.

Definition of_item (kv : string * value) : string :=
  quote (fst kv) +:+ ": " +:+ of_value (snd kv).

Definition of_dict (d : pydict) : string :=
  match d with
  | [] => "{}"
  | _ =>
      "{" +:+ nl +:+ "        "
        +:+ String.concat ("," +:+ nl +:+ "        ") (map of_item d)
        +:+ nl +:+ "    " +:+ "}"
  end.

Definition of_entry (e : entry) : string :=
  match e with
  | None => "null"
  | Some d => of_dict d
  end.

Definition dumps (l : list entry) : string :=
  match l with
  | [] => "[]"
  | _ =>
      "[" +:+ nl +:+ "    "
        +:+ String.concat ("," +:+ nl +:+ "    ") (map of_entry l)
        +:+ nl +:+ "]"
  end.

End Json.

(** ** The world outside the process *)

(** What [os.path.exists] and [open(...).read()] find at a path. *)
Inductive file : Type :=
| Absent                       (* os.path.exists is false *)
| Unreadable                   (* exists, but open or read raises *)
| Content (text : string).

(** What [requests.head(url, allow_redirects=True)] does. *)
Inductive response : Type :=
| Redirected (url : string)    (* completes; [response.url] *)
| RequestException             (* requests.exceptions.RequestException *)
| OtherException.              (* any other Exception *)

Record world : Type := {
  fs : string -> file;
  head : string -> response
}.

(** ** The parser object and the outcome of a method call *)

Record bibtexParser : Type := {
  file_path : string;
  bibtex_string : option string;
  metadata_entries : list string;
  parsed_entries : list entry
}.

Inductive exn : Type :=
| AttributeError
| TypeError
| ValueError.

(** The result of a helper that does not touch the parser. *)
Inductive result (A : Type) : Type :=
| Ok (a : A)
| Err (e : exn).
Arguments Ok {A} a.
Arguments Err {A} e.

(** The outcome of a method: in both cases with the parser as the call
    left it, for the object is mutated in place up to the raise. *)
Inductive outcome (A : Type) : Type :=
| Returns (a : A) (self : bibtexParser)
| Raises (e : exn) (self : bibtexParser).
Arguments Returns {A} a self.
Arguments Raises {A} e self.

Definition state_of {A} (o : outcome A) : bibtexParser :=
  match o with
  | Returns _ self => self
  | Raises _ self => self
  end.

Definition bind {A B} (o : outcome A) (f : A -> bibtexParser -> outcome B)
  : outcome B :=
  match o with
  | Returns a self => f a self
  | Raises e self => Raises e self
  end.

Notation "o >>> f" := (bind o (fun _ => f))
  (at level 50, left associativity).

Definition set_bibtex_string (self : bibtexParser) (s : string) :=
  {| file_path := file_path self;
     bibtex_string := Some s;
     metadata_entries := metadata_entries self;
     parsed_entries := parsed_entries self |}.

Definition set_metadata_entries (self : bibtexParser) (l : list string) :=
  {| file_path := file_path self;
     bibtex_string := bibtex_string self;
     metadata_entries := l;
     parsed_entries := parsed_entries self |}.

Definition set_parsed_entries (self : bibtexParser) (l : list entry) :=
  {| file_path := file_path self;
     bibtex_string := bibtex_string self;
     metadata_entries := metadata_entries self;
     parsed_entries := l |}.

(** ** The methods of [bibtexParser] *)

(** [__init__] *)
Definition init (path : string) : bibtexParser :=
  {| file_path := path;
     bibtex_string := None;
     metadata_entries := [];
     parsed_entries := [] |}.

Definition read_bibtex_file (w : world) (self : bibtexParser)
  : outcome unit :=
  if negb (Py.endswith (file_path self) ".bib") then Returns tt self
  else
    match fs w (file_path self) with
    | Absent => Returns tt self
    | Unreadable => Returns tt self
    | Content text => Returns tt (set_bibtex_string self text)
    end.

(** [chunk] is an item of [re.split]: a [str], or [None] for a group
    that took no part in the match, on which [.strip()] raises. *)
Definition _extract_entry_metadata (chunk : option string)
  : result (option string) :=
  match chunk with
  | None => Err AttributeError
  | Some chunk =>
      let chunk := Py.strip chunk in
      match chunk with
      | String c _ =>
          if negb (Ascii.eqb c "@") then Ok (Some chunk) else Ok None
      | EmptyString => Ok None
      end
  end.

(** The loop of [extract_metadata] over the chunks. *)
Fixpoint extract_loop (chunks : list (option string)) (self : bibtexParser)
  : outcome unit :=
  match chunks with
  | [] => Returns tt self
  | chunk :: rest =>
      match _extract_entry_metadata chunk with
      | Err e => Raises e self
      | Ok (Some metadata) =>
          if Py.truthy metadata then
            extract_loop rest
              (set_metadata_entries self (metadata_entries self ++ [metadata]))
          else extract_loop rest self
      | Ok None => extract_loop rest self
      end
  end.

(** The handler of [extract_metadata] catches [re.error] only, which the
    precompiled pattern never raises. *)
Definition extract_metadata (self : bibtexParser) : outcome unit :=
  match bibtex_string self with
  | None => Raises AttributeError self
  | Some text =>
      extract_loop (Re.split pattern_chunk_split (Py.strip text)) self
  end.

(** The [pattern] argument of [parse_metadata], by what [re] makes of
    it. *)
Inductive pattern_arg : Type :=
| PatDefault                   (* None or the empty string: falsy *)
| PatInvalid                   (* a string [re] cannot compile *)
| PatRegex (r : Re.regex).

(** [x not in (None, EmptyString)] on a part of a [findall] item *)
Definition nonempty (x : string) : bool := Py.truthy x.

(** [{key.lower(): value for key, value in matches}]: each item must
    unpack into exactly two parts. *)
Fixpoint dict_comprehension (matches : list (list string)) (d : pydict)
  : result pydict :=
  match matches with
  | [] => Ok d
  | [key; val] :: rest =>
      dict_comprehension rest (dict_set (Py.lower key) (VStr val) d)
  | _ :: _ => Err ValueError
  end.

(** [pattern] is [None] where the string does not compile: [re.findall]
    then raises [re.error], which the handler turns into [None]. *)
Definition _parse_metadata (metadata : string) (pattern : option Re.regex)
  : result entry :=
  match pattern with
  | None => Ok None
  | Some r =>
      let matches := Re.findall r metadata in
      let matches := map (filter (fun x => nonempty x = true)) matches in
      match dict_comprehension matches [] with
      | Ok parsed_data => Ok (Some parsed_data)
      | Err e => Err e
      end
  end.

Definition compiled (pattern : pattern_arg) : option Re.regex :=
  match pattern with
  | PatDefault => Some default_pattern
  | PatInvalid => None
  | PatRegex r => Some r
  end.

(** The loop of [parse_metadata] over [metadata_entries]. *)
Fixpoint parse_loop (pattern : option Re.regex) (todo : list string)
         (self : bibtexParser) : outcome unit :=
  match todo with
  | [] => Returns tt self
  | metadata :: rest =>
      match _parse_metadata metadata pattern with
      | Err e => Raises e self
      | Ok parsed_data =>
          parse_loop pattern rest
            (set_parsed_entries self (parsed_entries self ++ [parsed_data]))
      end
  end.

Definition parse_metadata (pattern : pattern_arg) (self : bibtexParser)
  : outcome unit :=
  parse_loop (compiled pattern) (metadata_entries self) self.

(** Both handlers log and fall through to [return None]; so does the
    [TypeError] of concatenating a [str] and [None]. *)
Definition _get_url_from_doi (w : world) (doi : value) : value :=
  match doi with
  | VNone => VNone
  | VStr doi =>
      match head w ("http://dx.doi.org/" +:+ doi) with
      | Redirected url => VStr url
      | RequestException => VNone
      | OtherException => VNone
      end
  end.

(** What one iteration makes of the dict at [idx]. *)
Definition with_urls (w : world) (d : pydict) : pydict :=
  match dict_get "doi" d with
  | Some doi =>
      let url := _get_url_from_doi w doi in
      dict_set "url" url (dict_set "doi_url" url d)
  | None => d
  end.

(** One iteration of [add_urls_from_doi].  [entry] is the object at
    [self.parsed_entries[idx]], so the two assignments update the list
    in place; on [None] the test [in] raises [TypeError]. *)
Definition add_url_step (idx : nat) (w : world) (e : entry)
           (self : bibtexParser) : outcome unit :=
  match e with
  | None => Raises TypeError self
  | Some d =>
      Returns tt
        (set_parsed_entries self
           (<[idx := Some (with_urls w d)]> (parsed_entries self)))
  end.

(** The [for] loop over [enumerate(self.parsed_entries)]: the iterator
    reads the list by index until the index runs past its end; [n]
    bounds the number of iterations by the length at entry. *)
Fixpoint add_urls_loop (w : world) (n idx : nat) (self : bibtexParser)
  : outcome unit :=
  match n with
  | O => Returns tt self
  | S n' =>
      match parsed_entries self !! idx with
      | None => Returns tt self
      | Some e =>
          bind (add_url_step idx w e self)
            (fun _ self' => add_urls_loop w n' (S idx) self')
      end
  end.

Definition add_urls_from_doi (w : world) (self : bibtexParser)
  : outcome unit :=
  add_urls_loop w (length (parsed_entries self)) 0 self.

Definition extract_parsed_entries (self : bibtexParser) : outcome string :=
  Returns (Json.dumps (parsed_entries self)) self.

(** What [parse_bibtex] hands back: [None], or the parser's own
    [parsed_entries] list (the object itself, not a copy). *)
Inductive retval : Type :=
| RetNone
| RetParsedEntries.

(** The contents of a returned value, read while the parser is [self]. *)
Definition deref (self : bibtexParser) (r : retval) : option (list entry) :=
  match r with
  | RetNone => None
  | RetParsedEntries => Some (parsed_entries self)
  end.

(** The body of the [try] of [parse_bibtex]. *)
Definition parse_bibtex_body (w : world) (json : bool) (self : bibtexParser)
  : outcome retval :=
  bind (read_bibtex_file w self
          >>> extract_metadata
          >>> parse_metadata PatDefault
          >>> add_urls_from_doi w)
    (fun _ self' =>
       if json then
         bind (extract_parsed_entries self') (fun _ self'' => Returns RetNone self'')
       else Returns RetParsedEntries self').

(** [except Exception]: log, then fall off the end, returning [None]. *)
Definition parse_bibtex (w : world) (json : bool) (self : bibtexParser)
  : outcome retval :=
  match parse_bibtex_body w json self with
  | Returns r self' => Returns r self'
  | Raises _ self' => Returns RetNone self'
  end.

(** ** Writing the result out: [save_parsed_entries] and [main] *)

(** What a run leaves outside the process. *)
Inductive io_result : Type :=
| Printed (text : string)              (* print(text) *)
| Wrote (path text : string)           (* open(path, "w"), f.write(text) *)
| CannotOpen (path : string).          (* open(path, "w") raises *)

(** [open] is tried before the JSON text is built. *)
Definition save_parsed_entries (writable : string -> bool)
           (self : bibtexParser) (output_path : string) : io_result :=
  if writable output_path then
    match extract_parsed_entries self with
    | Returns json_data _ => Wrote output_path json_data
    | Raises _ _ => CannotOpen output_path
    end
  else CannotOpen output_path.

(** [os.path.join(a, b)] on POSIX *)
Definition path_join (a b : string) : string :=
  match b with
  | String "/" _ => b
  | _ =>
      match a with
      | EmptyString => b
      | _ => if Py.endswith a "/" then a +:+ b else a +:+ "/" +:+ b
      end
  end.

(** [main], after [argparse] has accepted the command line:
    [file_path] and [save] are the parsed arguments, [script_dir] is
    [os.path.dirname(os.path.abspath(__file__))].  The value
    [parse_bibtex] returns is dropped; the parser it worked on is
    kept. *)
Definition main (w : world) (writable : string -> bool) (script_dir : string)
           (file_path : string) (save : bool) : io_result :=
  let parser := init file_path in
  let parser := state_of (parse_bibtex w true parser) in
  if save then
    save_parsed_entries writable parser
      (path_join script_dir "parsed_bibtex.json")
  else
    match extract_parsed_entries parser with
    | Returns text _ => Printed text
    | Raises _ _ => Printed EmptyString
    end.


(** ** Notions the statements below are about *)

(** *** Text *)

(** Every character of [s] is in the set [p]. *)
Fixpoint all_in (p : ascii -> bool) (s : string) : bool :=
  match s with
  | EmptyString => true
  | String c s' => p c && all_in p s'
  end.

(** [s] is empty or starts outside the set [p]. *)
Definition stops (p : ascii -> bool) (s : string) : Prop :=
  match s with
  | EmptyString => True
  | String c _ => p c = false
  end.

(** Letters only; whitespace only. *)
Fixpoint all_alpha (s : string) : bool :=
  match s with
  | EmptyString => true
  | String c s' => Py.is_alpha c && all_alpha s'
  end.

Fixpoint all_space (s : string) : bool :=
  match s with
  | EmptyString => true
  | String c s' => Py.is_space c && all_space s'
  end.

(** No [@] anywhere in [s]. *)
Definition at_free (s : string) : bool :=
  all_in (fun c => negb (Ascii.eqb c "@")) s.

(** An entry delimiter: [@], one or more letters, an opening brace. *)
Definition is_delimiter (d : string) : Prop :=
  exists letters,
    d = String "@" (letters +:+ "{") /\
    letters <> EmptyString /\ all_alpha letters = true.

(** The text contains an entry delimiter somewhere. *)
Definition has_delimiter (text : string) : Prop :=
  exists pre d post, is_delimiter d /\ text = pre +:+ d +:+ post.

(** What follows an entry body: the end of the text, or the [@] of the
    next delimiter. *)
Definition at_or_end (rest : string) : Prop :=
  rest = EmptyString \/ exists t, rest = String "@" t.

(** *** The chunker *)

(** The filtering policy in the words of the specification: trimmed,
    the segment is not empty and does not begin with [@]. *)
Definition acceptable (segment : string) : Prop :=
  Py.strip segment <> EmptyString /\
  String.get 0 (Py.strip segment) <> Some "@"%char.

(** The same, decided. *)
Definition accepts (segment : string) : bool :=
  match Py.strip segment with
  | EmptyString => false
  | String c _ => negb (Ascii.eqb c "@")
  end.

(** The segments of a scan, in order: text, match, text, ..., text. *)
Fixpoint segments (sc : Re.scanned) : list string :=
  match sc with
  | Re.Tail rest => [rest]
  | Re.Hit before matched _ next => before :: matched :: segments next
  end.

(** In every match of the scan, group 1 holds the whole match. *)
Fixpoint group1_whole (sc : Re.scanned) : Prop :=
  match sc with
  | Re.Tail _ => True
  | Re.Hit _ matched cs next =>
      Re.group 1 cs = Some matched /\ group1_whole next
  end.

(** What the chunker keeps of a scan. *)
Definition kept (sc : Re.scanned) : list string :=
  map Py.strip (filter (fun seg => accepts seg = true) (segments sc)).

(** What the chunker keeps of one segment. *)
Definition kept_of (seg : string) : list string :=
  if accepts seg then [Py.strip seg] else [].

(** An entry of the source text: its delimiter and its body. *)
Definition source_entry : Type := string * string.

(** Well-formed BibTeX text for the chunker: after optional leading
    whitespace, a sequence of entries, each a delimiter followed by a
    body; a body holds no delimiter of its own and, trimmed, is not
    empty and does not begin with [@] (it starts with the citation
    key). *)
Definition well_formed_entry (e : source_entry) : Prop :=
  is_delimiter (fst e) /\ ~ has_delimiter (snd e) /\ acceptable (snd e).

(** The entries written one after the other. *)
Fixpoint join_entries (es : list source_entry) : string :=
  match es with
  | [] => EmptyString
  | (d, b) :: es' => d +:+ b +:+ join_entries es'
  end.

Definition well_formed (text : string) (es : list source_entry) : Prop :=
  exists ws,
    all_space ws = true /\
    text = ws +:+ join_entries es /\
    Forall well_formed_entry es.

(** The entries joined, the last body trimmed on the right. *)
Fixpoint join_trimmed (es : list source_entry) : string :=
  match es with
  | [] => EmptyString
  | (d, b) :: es' =>
      d +:+ match es' with
            | [] => Py.rstrip b
            | _ :: _ => b +:+ join_trimmed es'
            end
  end.

(** *** The matcher *)

(** What a successful path of the matcher consumes and captures:
    [matches r s cs s' cs'] says that [r] takes the subject from [s] to
    its suffix [s'] and the captures from [cs] to [cs']. *)
Inductive matches : Re.regex -> string -> Re.caps -> string -> Re.caps -> Prop :=
| MEps s cs : matches Re.Eps s cs s cs
| MChr set c s cs :
    Re.mem set c = true -> matches (Re.Chr set) (String c s) cs s cs
| MStar set run rest cs :
    all_in (Re.mem set) run = true ->
    matches (Re.Star set) (run +:+ rest) cs rest cs
| MPlus set c run rest cs :
    Re.mem set c = true -> all_in (Re.mem set) run = true ->
    matches (Re.Plus set) (String c (run +:+ rest)) cs rest cs
| MSeq r1 r2 s cs s1 cs1 s2 cs2 :
    matches r1 s cs s1 cs1 -> matches r2 s1 cs1 s2 cs2 ->
    matches (Re.Seq r1 r2) s cs s2 cs2
| MAltL r1 r2 s cs s' cs' :
    matches r1 s cs s' cs' -> matches (Re.Alt r1 r2) s cs s' cs'
| MAltR r1 r2 s cs s' cs' :
    matches r2 s cs s' cs' -> matches (Re.Alt r1 r2) s cs s' cs'
| MGroup n r s cs s' cs' :
    matches r s cs s' cs' ->
    matches (Re.Group n r) s cs s' ((n, Re.consumed s s') :: cs').

(** The captures of the matches of a scan, in order. *)
Fixpoint hits (sc : Re.scanned) : list Re.caps :=
  match sc with
  | Re.Tail _ => []
  | Re.Hit _ _ cs next => cs :: hits next
  end.

(** *** The field parser *)

(** The field a [findall] item of the default pattern stands for: its
    key, and the value from whichever of the quoted, braced and bare
    groups is not empty. *)
Definition field_of (item : list string) : option (string * string) :=
  match item with
  | [key; quoted; braced; bare] =>
      if Py.truthy quoted then Some (key, quoted)
      else if Py.truthy braced then Some (key, braced)
      else if Py.truthy bare then Some (key, bare)
      else None
  | _ => None
  end.

(** The shape of an item of the default pattern: a key that is not
    empty and at most one value group that is not empty. *)
Definition field_shaped (item : list string) : Prop :=
  exists key v,
    key <> EmptyString /\
    (item = [key; v; EmptyString; EmptyString] \/
     item = [key; EmptyString; v; EmptyString] \/
     item = [key; EmptyString; EmptyString; v]).

(** The captures a match of the default pattern leaves. *)
Definition field_caps (cs : Re.caps) : Prop :=
  exists key v,
    key <> EmptyString /\
    (cs = [(2, v); (1, key)] \/ cs = [(3, v); (1, key)] \/
     cs = [(4, v); (1, key)]).

(** The dict a list of fields folds into, from [d]: keys lowercased,
    later fields written over earlier ones. *)
Definition dict_of_fields (fields : list (string * string)) (d : pydict)
  : pydict :=
  fold_left (fun d f => dict_set (Py.lower (fst f)) (VStr (snd f)) d) fields d.

(** No field of the list has [k] as its lowercased key. *)
Definition key_absent (k : string) (fields : list (string * string)) : Prop :=
  Forall (fun f => Py.lower (fst f) <> k) fields.

(** [f] is the last field of the list with lowercased key [k]. *)
Definition last_field (k : string) (f : string * string)
           (fields : list (string * string)) : Prop :=
  exists before after,
    fields = before ++ f :: after /\
    Py.lower (fst f) = k /\ key_absent k after.

(** *** The pipeline *)

(** The four stages of [parse_bibtex], in order. *)
Definition stages (w : world) (self : bibtexParser) : outcome unit :=
  read_bibtex_file w self
    >>> extract_metadata
    >>> parse_metadata PatDefault
    >>> add_urls_from_doi w.

(** What a call hands back, read at the moment it returns. *)
Definition output (o : outcome retval) : option (list entry) :=
  match o with
  | Returns r self => deref self r
  | Raises _ _ => None
  end.

(** The entry is a dict, not [None]. *)
Definition is_dict (e : entry) : Prop := e <> None.

(** What [add_urls_from_doi] makes of one entry that is a dict. *)
Definition urls_added (w : world) (e : entry) : entry :=
  option_map (with_urls w) e.

(** The URL looked up for a DOI. *)
Definition doi_url (doi : string) : string := "http://dx.doi.org/" +:+ doi.

(** *** Sample worlds *)

(** A file system holding one file. *)
Definition one_file (path text : string) : string -> file :=
  fun p => if (p =? path)%string then Content text else Absent.

(** Every DOI lookup fails with a request error. *)
Definition no_network : string -> response := fun _ => RequestException.

(** One file and no network. *)
Definition offline (path text : string) : world :=
  {| fs := one_file path text; head := no_network |}.


(** ** Notions the further properties are about *)

(** [s] without its first [n] characters. *)
Fixpoint drop_str (n : nat) (s : string) : string :=
  match n, s with
  | S n', String _ s' => drop_str n' s'
  | _, _ => s
  end.

(** The strings of a list written one after the other. *)
Fixpoint concat_str (l : list string) : string :=
  match l with
  | [] => EmptyString
  | s :: l' => s +:+ concat_str l'
  end.

(** Character sets of the default pattern, as predicates. *)
Definition not_quote (c : ascii) : bool := negb (Ascii.eqb c "034").
Definition not_closing_brace (c : ascii) : bool := negb (Ascii.eqb c "}").

(** An item of the default pattern, group by group: the key is a
    non-empty run of word characters; the quoted value holds no double
    quote, the braced value no closing brace, the bare value is a run of
    word characters; at most one of the three values is not empty. *)
Definition field_item (item : list string) : Prop :=
  exists key quoted braced bare,
    item = [key; quoted; braced; bare] /\
    key <> EmptyString /\
    all_in Py.is_word key = true /\
    all_in not_quote quoted = true /\
    all_in not_closing_brace braced = true /\
    all_in Py.is_word bare = true /\
    ((braced = EmptyString /\ bare = EmptyString) \/
     (quoted = EmptyString /\ bare = EmptyString) \/
     (quoted = EmptyString /\ braced = EmptyString)).

(** The same, on the captures of a match. *)
Definition field_capture (cs : Re.caps) : Prop :=
  exists key v,
    key <> EmptyString /\ all_in Py.is_word key = true /\
    ((cs = [(2, v); (1, key)] /\ all_in not_quote v = true) \/
     (cs = [(3, v); (1, key)] /\ all_in not_closing_brace v = true) \/
     (cs = [(4, v); (1, key)] /\ all_in Py.is_word v = true)).

(** A well-kept item of a record: a lowercase, non-empty key and a
    value that is a non-empty string. *)
Definition clean_item (kv : string * value) : Prop :=
  Py.lower (fst kv) = fst kv /\
  fst kv <> EmptyString /\
  exists s, snd kv = VStr s /\ s <> EmptyString.

(** One field, written in each of the three forms the default pattern
    knows, with any whitespace around the equals sign. *)
Definition quoted_field (key ws1 ws2 val : string) : string :=
  key +:+ ws1 +:+ String "=" (ws2 +:+ String "034" (val +:+ String "034" EmptyString)).

Definition braced_field (key ws1 ws2 val : string) : string :=
  key +:+ ws1 +:+ String "=" (ws2 +:+ String "{" (val +:+ String "}" EmptyString)).

Definition bare_field (key ws1 ws2 val : string) : string :=
  key +:+ ws1 +:+ String "=" (ws2 +:+ val +:+ EmptyString).

(** The fields of a list of [findall] items, if every item has a
    value. *)
Fixpoint all_fields (items : list (list string))
  : option (list (string * string)) :=
  match items with
  | [] => Some []
  | item :: rest =>
      match field_of item, all_fields rest with
      | Some f, Some fs => Some (f :: fs)
      | _, _ => None
      end
  end.

(** The fields of a chunk under the default pattern; [None] when some
    match has an empty value. *)
Definition chunk_fields (metadata : string) : option (list (string * string)) :=
  all_fields (Re.findall default_pattern metadata).

(** The record of a chunk whose matches all have a value. *)
Definition parsed_record (metadata : string) : entry :=
  Some (match chunk_fields metadata with
        | Some fields => dict_of_fields fields []
        | None => []
        end).

(** The chunks [extract_metadata] makes of a text. *)
Definition chunks_of (text : string) : list string :=
  kept (Re.scan pattern_chunk_split (Py.strip text) 0 EmptyString).

(** [read_bibtex_file] gets [text] from [path]. *)
Definition readable (w : world) (path text : string) : Prop :=
  (exists stem, path = stem +:+ ".bib") /\ fs w path = Content text.

(** The parser a completed first run leaves. *)
Definition parsed_state (w : world) (path text : string) : bibtexParser :=
  {| file_path := path;
     bibtex_string := Some text;
     metadata_entries := chunks_of text;
     parsed_entries := map (urls_added w) (map parsed_record (chunks_of text)) |}.

(** * Properties *)

(** ** Strings *)

Section Strings.

Implicit Types s t u : string.

Lemma str_app_nil_r s : s +:+ EmptyString = s.
Proof. induction s as [|c s IH]; simpl; [reflexivity | now rewrite IH]. Qed.

Lemma str_app_assoc s t u : (s +:+ t) +:+ u = s +:+ (t +:+ u).
Proof. induction s as [|c s IH]; simpl; [reflexivity | now rewrite IH]. Qed.

Lemma str_length_app s t :
  String.length (s +:+ t) = String.length s + String.length t.
Proof. induction s as [|c s IH]; simpl; [reflexivity | now rewrite IH]. Qed.

Lemma str_app_eq_nil s t : s +:+ t = EmptyString -> s = EmptyString /\ t = EmptyString.
Proof. destruct s; simpl; [auto | discriminate]. Qed.

(** Two ways of cutting one string overlap in a common middle. *)
Lemma str_app_eq_app s t u v :
  s +:+ t = u +:+ v ->
  (exists m, u = s +:+ m /\ t = m +:+ v) \/
  (exists m, s = u +:+ m /\ v = m +:+ t).
Proof.
  revert u. induction s as [|c s IH]; intros u H; simpl in H.
  - left. exists u. auto.
  - destruct u as [|d u]; simpl in H.
    + right. exists (String c s). auto.
    + injection H as -> H. destruct (IH _ H) as [[m [-> ->]]|[m [-> ->]]].
      * left. exists m. auto.
      * right. exists m. auto.
Qed.

Lemma take_str_app s t : Re.take_str (String.length s) (s +:+ t) = s.
Proof. induction s as [|c s IH]; simpl; [now destruct t | now rewrite IH]. Qed.

Lemma consumed_app s t : Re.consumed (s +:+ t) t = s.
Proof.
  unfold Re.consumed. rewrite str_length_app.
  replace (String.length s + String.length t - String.length t)
    with (String.length s) by lia.
  apply take_str_app.
Qed.

End Strings.

(** ** The chunk delimiter pattern *)

Section Repetition.

Context {A : Type} (p : ascii -> bool).

(** A continuation that refuses every subject starting inside the
    set leaves the greedy repetition one choice: the whole run. *)
Lemma star_k_run (k : string -> option A) run rest :
  all_in p run = true -> stops p rest ->
  (forall c t, p c = true -> k (String c t) = None) ->
  Re.star_k p (run +:+ rest) k = k rest.
Proof.
  intros Hrun Hstop Hk. induction run as [|c run IH]; simpl in *.
  - destruct rest as [|c t]; [reflexivity|]. simpl in *. now rewrite Hstop.
  - apply andb_prop in Hrun as [Hc Hrun]. rewrite Hc, (IH Hrun).
    destruct (k rest) eqn:E; [reflexivity|]. now apply Hk.
Qed.

(** Whatever the repetition answers, the continuation answered it
    after a run of characters of the set. *)
Lemma star_k_sound (k : string -> option A) s x :
  Re.star_k p s k = Some x ->
  exists run rest, s = run +:+ rest /\ all_in p run = true /\ k rest = Some x.
Proof.
  induction s as [|c s IH]; simpl; intros H.
  - exists EmptyString, EmptyString. auto.
  - destruct (p c) eqn:Hc.
    + destruct (Re.star_k p s k) eqn:E.
      * injection H as ->. destruct (IH eq_refl) as (run & rest & -> & Hr & Hk).
        exists (String c run), rest. simpl. rewrite Hc, Hr. auto.
      * exists EmptyString, (String c s). auto.
    + exists EmptyString, (String c s). auto.
Qed.

End Repetition.

Lemma all_in_alpha s : all_in Py.is_alpha s = all_alpha s.
Proof. induction s as [|c s IH]; simpl; [reflexivity | now rewrite IH]. Qed.

Lemma alpha_not_brace c : Py.is_alpha c = true -> Ascii.eqb c "{" = false.
Proof.
  intros H. destruct (Ascii.eqb_spec c "{") as [->|]; [discriminate H | reflexivity].
Qed.

Lemma alpha_not_at c : Py.is_alpha c = true -> Ascii.eqb c "@" = false.
Proof.
  intros H. destruct (Ascii.eqb_spec c "@") as [->|]; [discriminate H | reflexivity].
Qed.

Lemma is_delimiter_length d : is_delimiter d -> 3 <= String.length d.
Proof.
  intros (l & -> & Hne & _). destruct l as [|c l]; [congruence|].
  simpl. rewrite str_length_app. simpl. lia.
Qed.

(** A delimiter at the start of the subject is matched, whole. *)
Lemma match_at_delimiter d rest adv :
  is_delimiter d ->
  Re.match_at pattern_chunk_split (d +:+ rest) adv
  = Some (String.length d, [(1, d)]).
Proof.
  intros Hd. pose proof (is_delimiter_length d Hd) as Hlen.
  destruct Hd as (l & -> & Hne & Hal).
  destruct l as [|c l]; [congruence|]. simpl in Hal.
  apply andb_prop in Hal as [Hc Hal].
  unfold Re.match_at, pattern_chunk_split. cbn [Re.run Re.mem].
  cbn [String.append]. rewrite Ascii.eqb_refl. cbn [Re.mem]. rewrite Hc.
  rewrite str_app_assoc.
  rewrite (star_k_run Py.is_alpha).
  - cbn [String.append]. rewrite Ascii.eqb_refl.
    change (String "@" (String c (l +:+ String "{" rest)))
      with ((String "@" (String c EmptyString)) +:+ (l +:+ String "{" rest)).
    replace (String "@" (String c EmptyString) +:+ l +:+ String "{" rest)
      with ((String "@" (String c (l +:+ "{"))) +:+ rest)
      by (cbn [String.append]; now rewrite str_app_assoc).
    rewrite consumed_app, str_length_app.
    replace (String.length rest =? _) with false
      by (symmetry; apply Nat.eqb_neq; simpl in *; lia).
    rewrite andb_false_r. do 2 f_equal. lia.
  - now rewrite all_in_alpha.
  - simpl. reflexivity.
  - intros c' t Hc'. now rewrite (alpha_not_brace c' Hc').
Qed.

(** Whatever the pattern matches at the start of the subject is a
    delimiter, captured whole by group 1. *)
Lemma match_at_chunk_sound s adv n cs :
  Re.match_at pattern_chunk_split s adv = Some (n, cs) ->
  exists d rest,
    is_delimiter d /\ s = d +:+ rest /\ n = String.length d /\ cs = [(1, d)].
Proof.
  unfold Re.match_at, pattern_chunk_split. cbn [Re.run Re.mem].
  destruct s as [|c0 s]; [discriminate|].
  destruct (Ascii.eqb_spec c0 "@") as [->|]; [|discriminate].
  destruct s as [|c1 s]; [discriminate|]. cbn [Re.mem].
  destruct (Py.is_alpha c1) eqn:Hc1; [|discriminate].
  intros H. apply star_k_sound in H as (run & rest & -> & Hrun & H).
  destruct rest as [|c2 rest]; [discriminate|].
  destruct (Ascii.eqb_spec c2 "{") as [->|]; [|discriminate].
  set (d := String "@" (String c1 (run +:+ "{"))).
  assert (Hs : String "@" (String c1 (run +:+ String "{" rest)) = d +:+ rest).
  { unfold d. cbn [String.append]. now rewrite str_app_assoc. }
  rewrite Hs in H. rewrite consumed_app, str_length_app in H.
  destruct (adv && _); [discriminate|]. injection H as <- <-.
  exists d, rest. split; [|split; [assumption|split; [unfold d; simpl; lia|reflexivity]]].
  exists (String c1 run). split; [reflexivity|split; [discriminate|]].
  simpl. rewrite Hc1, <- all_in_alpha. exact Hrun.
Qed.

(** ** The search loop *)

Lemma scan_zero r s acc :
  Re.scan r s 0 acc =
  match Re.match_at r s false with
  | Some (S n, cs) =>
      match s with
      | String _ s' =>
          Re.Hit acc (Re.take_str (S n) s) cs (Re.scan r s' n EmptyString)
      | EmptyString => Re.Tail acc
      end
  | Some (O, cs) =>
      Re.Hit acc EmptyString cs
        match Re.match_at r s true, s with
        | Some (S n, cs'), String _ s' =>
            Re.Hit EmptyString (Re.take_str (S n) s) cs'
              (Re.scan r s' n EmptyString)
        | _, String c s' => Re.scan r s' 0 (String c EmptyString)
        | _, EmptyString => Re.Tail EmptyString
        end
  | None =>
      match s with
      | String c s' => Re.scan r s' 0 (acc +:+ String c EmptyString)
      | EmptyString => Re.Tail acc
      end
  end.
Proof. destruct s; reflexivity. Qed.

(** Passing over the rest of a match. *)
Lemma scan_skip r d rest acc :
  Re.scan r (d +:+ rest) (String.length d) acc = Re.scan r rest 0 acc.
Proof. induction d as [|c d IH]; simpl; [reflexivity | apply IH]. Qed.

(** A non-empty match at the current position is reported, and the
    search resumes right after it. *)
Lemma scan_hit r d rest cs acc :
  d <> EmptyString ->
  Re.match_at r (d +:+ rest) false = Some (String.length d, cs) ->
  Re.scan r (d +:+ rest) 0 acc
  = Re.Hit acc d cs (Re.scan r rest 0 EmptyString).
Proof.
  intros Hd Hm. rewrite scan_zero, Hm.
  destruct d as [|c d]; [congruence|]. cbn [String.length String.append].
  change (String c (d +:+ rest)) with (String c d +:+ rest).
  rewrite <- (scan_skip r d rest).
  change (S (String.length d)) with (String.length (String c d)).
  now rewrite take_str_app.
Qed.

(** A stretch with no match at any of its positions goes to the text
    before the next match. *)
Lemma scan_no_match r b rest acc :
  (forall b1 b2, b = b1 +:+ b2 -> b2 <> EmptyString ->
                 Re.match_at r (b2 +:+ rest) false = None) ->
  Re.scan r (b +:+ rest) 0 acc = Re.scan r rest 0 (acc +:+ b).
Proof.
  revert acc. induction b as [|c b IH]; intros acc H.
  - now rewrite str_app_nil_r.
  - rewrite scan_zero, (H EmptyString (String c b) eq_refl) by discriminate.
    cbn [String.append]. rewrite IH.
    + now rewrite str_app_assoc.
    + intros b1 b2 -> Hb2. apply (H (String c b1) b2); [reflexivity | assumption].
Qed.

Lemma scan_end r acc :
  Re.match_at r EmptyString false = None ->
  Re.scan r EmptyString 0 acc = Re.Tail acc.
Proof. intros H. now rewrite scan_zero, H. Qed.

(** ** Text between delimiters *)

Lemma no_at_among_letters l x y :
  all_alpha l = true -> x +:+ String "@" y <> l +:+ "{".
Proof.
  revert x. induction l as [|a l IH]; intros x Hl H; simpl in *.
  - destruct x as [|c x]; simpl in H; [discriminate|].
    injection H as _ H. now destruct x.
  - apply andb_prop in Hl as [Ha Hl]. destruct x as [|c x]; simpl in H.
    + injection H as <- _. discriminate Ha.
    + injection H as _ H. now apply (IH x).
Qed.

(** Inside a body free of delimiters, followed by a delimiter or by
    the end of the text, the pattern matches nowhere. *)
Lemma body_no_match b rest :
  ~ has_delimiter b -> at_or_end rest ->
  forall b1 b2, b = b1 +:+ b2 -> b2 <> EmptyString ->
                Re.match_at pattern_chunk_split (b2 +:+ rest) false = None.
Proof.
  intros Hb Hrest b1 b2 -> Hb2.
  destruct (Re.match_at _ _ _) as [[n cs]|] eqn:E; [|reflexivity].
  exfalso. apply match_at_chunk_sound in E as (d & rest' & Hd & Heq & _).
  apply str_app_eq_app in Heq as [(m & -> & Hr)|(m & -> & _)].
  - destruct m as [|c m].
    + apply Hb. exists b1, b2, EmptyString. rewrite str_app_nil_r in Hd.
      now rewrite str_app_nil_r.
    + destruct Hrest as [->|[t ->]]; [discriminate|].
      injection Hr as <- _. destruct Hd as (l & Hd & _ & Hl).
      destruct b2 as [|c b2]; [congruence|]. simpl in Hd.
      injection Hd as _ Hd. now apply no_at_among_letters in Hd.
  - apply Hb. exists b1, d, m. split; [assumption | reflexivity].
Qed.

Lemma no_match_at_end adv :
  Re.match_at pattern_chunk_split EmptyString adv = None.
Proof. reflexivity. Qed.

(** Text free of delimiters is one segment. *)
Lemma scan_no_delimiter text acc :
  ~ has_delimiter text ->
  Re.scan pattern_chunk_split text 0 acc = Re.Tail (acc +:+ text).
Proof.
  intros H. rewrite <- (str_app_nil_r text) at 1.
  rewrite scan_no_match.
  - apply scan_end, no_match_at_end.
  - apply body_no_match; [assumption | now left].
Qed.

(** ** Trimming *)

Lemma lstrip_suffix s :
  exists ws, all_space ws = true /\ s = ws +:+ Py.lstrip s.
Proof.
  induction s as [|c s (ws & Hws & IH)]; simpl.
  - exists EmptyString. auto.
  - destruct (Py.is_space c) eqn:Hc.
    + exists (String c ws). simpl. rewrite Hc, Hws. split; [reflexivity | congruence].
    + exists EmptyString. auto.
Qed.

Lemma rstrip_prefix s :
  exists ws, all_space ws = true /\ s = Py.rstrip s +:+ ws.
Proof.
  induction s as [|c s (ws & Hws & IH)]; simpl.
  - exists EmptyString. auto.
  - destruct (Py.rstrip s) as [|c' r] eqn:Hr.
    + destruct (Py.is_space c) eqn:Hc.
      * exists (String c ws). simpl in *. rewrite Hc, Hws. split; [reflexivity | congruence].
      * exists ws. simpl in *. split; [assumption | congruence].
    + exists ws. split; [assumption|]. simpl in *. congruence.
Qed.

Lemma rstrip_idem s : Py.rstrip (Py.rstrip s) = Py.rstrip s.
Proof.
  induction s as [|c s IH]; simpl; [reflexivity|].
  destruct (Py.rstrip s) as [|c' r] eqn:Hr.
  - destruct (Py.is_space c) eqn:Hc; simpl; [reflexivity | now rewrite Hc].
  - change (Py.rstrip (String c (String c' r)))
      with (match Py.rstrip (String c' r) with
            | EmptyString =>
                if Py.is_space c then EmptyString else String c EmptyString
            | r' => String c r'
            end).
    now rewrite IH.
Qed.

Lemma rstrip_head c s :
  Py.is_space c = false -> exists t, Py.rstrip (String c s) = String c t.
Proof.
  intros Hc. simpl. destruct (Py.rstrip s); rewrite ?Hc; eauto.
Qed.

Lemma lstrip_head c s : Py.is_space c = false -> Py.lstrip (String c s) = String c s.
Proof. intros Hc. simpl. now rewrite Hc. Qed.

Lemma lstrip_stops s : stops Py.is_space (Py.lstrip s).
Proof.
  induction s as [|c s IH]; simpl; [exact I|].
  destruct (Py.is_space c) eqn:Hc; [assumption | exact Hc].
Qed.

Lemma lstrip_fixed s : stops Py.is_space s -> Py.lstrip s = s.
Proof. destruct s as [|c s]; simpl; [reflexivity | now intros ->]. Qed.

Lemma rstrip_stops s : stops Py.is_space s -> stops Py.is_space (Py.rstrip s).
Proof.
  destruct s as [|c s]; [intros; exact I|]. intros Hc.
  destruct (rstrip_head c s Hc) as [t ->]. exact Hc.
Qed.

Lemma strip_stops s : stops Py.is_space (Py.strip s).
Proof. apply rstrip_stops, lstrip_stops. Qed.

Lemma strip_idem s : Py.strip (Py.strip s) = Py.strip s.
Proof.
  unfold Py.strip at 1. rewrite (lstrip_fixed (Py.strip s)) by apply strip_stops.
  apply rstrip_idem.
Qed.

Lemma rstrip_empty_lstrip s : Py.rstrip s = EmptyString -> Py.lstrip s = EmptyString.
Proof.
  induction s as [|c s IH]; simpl; [reflexivity|].
  destruct (Py.rstrip s); [|discriminate].
  destruct (Py.is_space c); [auto | discriminate].
Qed.

Lemma lstrip_rstrip s : Py.lstrip (Py.rstrip s) = Py.rstrip (Py.lstrip s).
Proof.
  induction s as [|c s IH]; [reflexivity|].
  destruct (Py.is_space c) eqn:Hc.
  - simpl. rewrite Hc. destruct (Py.rstrip s) as [|c' r] eqn:Hr.
    + exact IH.
    + rewrite <- IH. simpl. now rewrite Hc.
  - rewrite (lstrip_head c s Hc). apply lstrip_fixed, rstrip_stops. exact Hc.
Qed.

Lemma strip_rstrip s : Py.strip (Py.rstrip s) = Py.strip s.
Proof. unfold Py.strip. now rewrite lstrip_rstrip, rstrip_idem. Qed.

Lemma lstrip_spaces ws s : all_space ws = true -> Py.lstrip (ws +:+ s) = Py.lstrip s.
Proof.
  induction ws as [|c ws IH]; simpl; [reflexivity|].
  intros H. apply andb_prop in H as [-> H]. auto.
Qed.

Lemma rstrip_app s t :
  Py.rstrip t <> EmptyString -> Py.rstrip (s +:+ t) = s +:+ Py.rstrip t.
Proof.
  intros Ht. induction s as [|c s IH]; simpl; [reflexivity|].
  rewrite IH. destruct (s +:+ Py.rstrip t) eqn:E; [|reflexivity].
  apply str_app_eq_nil in E as [_ E]. congruence.
Qed.

Lemma strip_nonempty_rstrip s : Py.strip s <> EmptyString -> Py.rstrip s <> EmptyString.
Proof.
  unfold Py.strip. rewrite <- lstrip_rstrip. intros H E. now rewrite E in H.
Qed.

(** Trimming only removes text: what it leaves has no delimiter the
    text did not have. *)
Lemma strip_has_delimiter s : has_delimiter (Py.strip s) -> has_delimiter s.
Proof.
  intros (pre & d & post & Hd & E).
  destruct (lstrip_suffix s) as (w1 & _ & E1).
  destruct (rstrip_prefix (Py.lstrip s)) as (w2 & _ & E2).
  fold (Py.strip s) in E2. rewrite E in E2. rewrite E2 in E1.
  exists (w1 +:+ pre), d, (post +:+ w2). split; [assumption|].
  rewrite E1. now rewrite !str_app_assoc.
Qed.

Lemma rstrip_has_delimiter s : has_delimiter (Py.rstrip s) -> has_delimiter s.
Proof.
  intros (pre & d & post & Hd & E).
  destruct (rstrip_prefix s) as (w & _ & E1). rewrite E in E1.
  exists pre, d, (post +:+ w). split; [assumption|].
  rewrite E1. now rewrite !str_app_assoc.
Qed.

(** ** The filtering policy *)

Lemma accepts_acceptable seg : accepts seg = true <-> acceptable seg.
Proof.
  unfold accepts, acceptable. destruct (Py.strip seg) as [|c t]; simpl.
  - split; [discriminate | intros [H _]; congruence].
  - destruct (Ascii.eqb_spec c "@") as [->|Hc]; simpl.
    + split; [discriminate | intros [_ H]; congruence].
    + split; [|reflexivity]. intros _. split; [discriminate | congruence].
Qed.

Lemma extract_entry_metadata_accepts seg :
  _extract_entry_metadata (Some seg)
  = Ok (if accepts seg then Some (Py.strip seg) else None).
Proof.
  unfold _extract_entry_metadata, accepts.
  destruct (Py.strip seg) as [|c t]; [reflexivity|].
  now destruct (Ascii.eqb c "@").
Qed.

Lemma accepts_truthy seg : accepts seg = true -> Py.truthy (Py.strip seg) = true.
Proof. unfold accepts. now destruct (Py.strip seg). Qed.

(** The loop over segments that are all strings keeps the accepted
    ones, trimmed, in order, and does not raise. *)
Lemma extract_loop_segments segs self :
  extract_loop (map Some segs) self
  = Returns tt
      (set_metadata_entries self
         (metadata_entries self
            ++ map Py.strip (filter (fun seg => accepts seg = true) segs))).
Proof.
  revert self. induction segs as [|seg segs IH]; intros self.
  - simpl. rewrite app_nil_r. now destruct self.
  - cbn [map extract_loop]. rewrite extract_entry_metadata_accepts.
    rewrite filter_cons. destruct (decide (accepts seg = true)) as [Ha|Ha].
    + rewrite Ha, (accepts_truthy seg Ha), IH. cbn [map].
      unfold set_metadata_entries. cbn. now rewrite <- app_assoc.
    + apply not_true_is_false in Ha. now rewrite Ha, IH.
Qed.

(** ** What [re.split] hands to the chunker *)

Lemma scan_chunk_group1 s skip acc :
  group1_whole (Re.scan pattern_chunk_split s skip acc).
Proof.
  revert skip acc. induction s as [|c s IH]; intros skip acc.
  - destruct skip; [|exact I]. now rewrite scan_end.
  - destruct skip as [|skip]; [|apply IH].
    rewrite scan_zero.
    destruct (Re.match_at _ _ false) as [[n cs]|] eqn:E; [|apply IH].
    apply match_at_chunk_sound in E as (d & rest & Hd & Hs & -> & ->).
    pose proof (is_delimiter_length d Hd) as Hlen.
    destruct (String.length d) as [|n] eqn:Hn; [lia|].
    split; [|apply IH]. rewrite Hs, <- Hn, take_str_app. reflexivity.
Qed.

Lemma split_of_segments sc :
  group1_whole sc ->
  Re.split_of pattern_chunk_split sc = map Some (segments sc).
Proof.
  induction sc as [rest|before m cs next IH]; intros H; [reflexivity|].
  destruct H as [H1 H]. cbn. now rewrite H1, IH.
Qed.

(** Every item of the split is a string: the one group always takes
    part in the match. *)
Lemma split_chunk_segments text :
  Re.split pattern_chunk_split text
  = map Some (segments (Re.scan pattern_chunk_split text 0 EmptyString)).
Proof. apply split_of_segments, scan_chunk_group1. Qed.

(** ** The chunker *)

Lemma extract_metadata_segments self text :
  bibtex_string self = Some text ->
  extract_metadata self
  = Returns tt
      (set_metadata_entries self
         (metadata_entries self
            ++ map Py.strip
                 (filter (fun seg => accepts seg = true)
                    (segments
                       (Re.scan pattern_chunk_split (Py.strip text) 0
                          EmptyString))))).
Proof.
  intros H. unfold extract_metadata. rewrite H, split_chunk_segments.
  apply extract_loop_segments.
Qed.

(** C4. Every segment the split produces is a string; the chunker
    keeps a segment exactly when, trimmed, it is not empty and does not
    begin with [@]; the kept segments are appended trimmed and in
    order, the others are dropped, and the call returns normally. *)
Theorem extract_metadata_filtering_policy (self : bibtexParser) (text : string) :
  bibtex_string self = Some text ->
  exists segs : list string,
    Re.split pattern_chunk_split (Py.strip text) = map Some segs /\
    (forall seg,
        (acceptable seg ->
         _extract_entry_metadata (Some seg) = Ok (Some (Py.strip seg))) /\
        (~ acceptable seg ->
         _extract_entry_metadata (Some seg) = Ok None)) /\
    (forall seg, accepts seg = true <-> acceptable seg) /\
    extract_metadata self
    = Returns tt
        (set_metadata_entries self
           (metadata_entries self
              ++ map Py.strip (filter (fun seg => accepts seg = true) segs))).
Proof.
  intros H.
  exists (segments (Re.scan pattern_chunk_split (Py.strip text) 0 EmptyString)).
  split; [apply split_chunk_segments|].
  split; [|split; [apply accepts_acceptable | now apply extract_metadata_segments]].
  intros seg. rewrite extract_entry_metadata_accepts. split; intros Ha.
  - apply accepts_acceptable in Ha. now rewrite Ha.
  - destruct (accepts seg) eqn:E; [|reflexivity].
    exfalso. now apply Ha, accepts_acceptable.
Qed.

Lemma extract_metadata_filtering_policy_witness :
  exists segs : list string,
    Re.split pattern_chunk_split (Py.strip "@book{b1, title={X}}") = map Some segs /\
    (forall seg,
        (acceptable seg ->
         _extract_entry_metadata (Some seg) = Ok (Some (Py.strip seg))) /\
        (~ acceptable seg ->
         _extract_entry_metadata (Some seg) = Ok None)) /\
    (forall seg, accepts seg = true <-> acceptable seg) /\
    extract_metadata (set_bibtex_string (init "a.bib") "@book{b1, title={X}}")
    = Returns tt
        (set_metadata_entries (set_bibtex_string (init "a.bib") "@book{b1, title={X}}")
           (metadata_entries (set_bibtex_string (init "a.bib") "@book{b1, title={X}}")
              ++ map Py.strip (filter (fun seg => accepts seg = true) segs))).
Proof.
  apply (extract_metadata_filtering_policy
           (set_bibtex_string (init "a.bib") "@book{b1, title={X}}")
           "@book{b1, title={X}}").
  reflexivity.
Defined.

(** C5, as the specification words it, fails: text with no delimiter
    that is not blank comes back as one chunk. *)
Lemma no_delimiter_not_empty :
  ~ (forall self text,
        bibtex_string self = Some text -> ~ has_delimiter text ->
        exists self',
          extract_metadata self = Returns tt self' /\
          metadata_entries self' = []).
Proof.
  intros H.
  destruct (H (set_bibtex_string (init "refs.bib") "% my references")
              "% my references" eq_refl) as (self' & Hrun & Hempty).
  - intros (pre & d & post & (l & -> & _) & E).
    repeat (destruct pre as [|? pre]; [discriminate E|];
            injection E as _ E).
    destruct pre; discriminate E.
  - vm_compute in Hrun. injection Hrun as <-. discriminate Hempty.
Qed.

(** C5, amended. On text with no delimiter the chunker returns
    normally; it adds nothing when the trimmed text is empty or begins
    with [@], and otherwise adds the trimmed text as the one chunk. *)
Theorem extract_metadata_no_delimiter (self : bibtexParser) (text : string) :
  bibtex_string self = Some text ->
  ~ has_delimiter text ->
  extract_metadata self
  = Returns tt
      (set_metadata_entries self
         (metadata_entries self
            ++ (if accepts text then [Py.strip text] else []))) /\
  (accepts text = true <-> acceptable text).
Proof.
  intros H Hno. split; [|apply accepts_acceptable].
  rewrite (extract_metadata_segments self text H).
  rewrite scan_no_delimiter
    by (intros Hd; now apply Hno, strip_has_delimiter).
  cbn [String.append segments]. rewrite filter_cons, filter_nil.
  assert (Hacc : accepts (Py.strip text) = accepts text)
    by (unfold accepts; now rewrite strip_idem).
  rewrite Hacc. destruct (accepts text) eqn:E.
  - rewrite decide_True by reflexivity. cbn [map]. now rewrite strip_idem.
  - rewrite decide_False by discriminate. reflexivity.
Qed.

Lemma extract_metadata_no_delimiter_witness :
  extract_metadata (set_bibtex_string (init "refs.bib") "  hello ")
  = Returns tt
      (set_metadata_entries (set_bibtex_string (init "refs.bib") "  hello ")
         (metadata_entries (set_bibtex_string (init "refs.bib") "  hello ")
            ++ (if accepts "  hello " then [Py.strip "  hello "] else []))) /\
  (accepts "  hello " = true <-> acceptable "  hello ").
Proof.
  apply (extract_metadata_no_delimiter
           (set_bibtex_string (init "refs.bib") "  hello ") "  hello ").
  - reflexivity.
  - intros (pre & d & post & (l & -> & _) & E).
    repeat (destruct pre as [|? pre]; [discriminate E|];
            injection E as _ E).
    destruct pre; discriminate E.
Defined.

(** ** Count preservation *)

Lemma kept_tail rest : kept (Re.Tail rest) = kept_of rest.
Proof.
  unfold kept, kept_of. cbn [segments]. rewrite filter_cons, filter_nil.
  destruct (accepts rest) eqn:E.
  - now rewrite decide_True by reflexivity.
  - now rewrite decide_False by discriminate.
Qed.

Lemma kept_hit before m cs next :
  kept (Re.Hit before m cs next) = kept_of before ++ kept_of m ++ kept next.
Proof.
  unfold kept, kept_of. cbn [segments]. rewrite !filter_cons.
  destruct (accepts before) eqn:E1, (accepts m) eqn:E2;
    repeat (first [rewrite decide_True by reflexivity
                  |rewrite decide_False by discriminate]);
    reflexivity.
Qed.

Lemma at_not_space : Py.is_space "@" = false.
Proof. reflexivity. Qed.

Lemma accepts_delimiter d : is_delimiter d -> accepts d = false.
Proof.
  intros (l & -> & _). unfold accepts, Py.strip.
  rewrite (lstrip_head _ _ at_not_space).
  now destruct (rstrip_head "@" (l +:+ "{") at_not_space) as [t ->].
Qed.

Lemma kept_of_delimiter d : is_delimiter d -> kept_of d = [].
Proof. intros H. unfold kept_of. now rewrite accepts_delimiter. Qed.

Lemma kept_of_empty : kept_of EmptyString = [].
Proof. reflexivity. Qed.

Lemma kept_of_acceptable b : acceptable b -> kept_of b = [Py.strip b].
Proof. intros H. apply accepts_acceptable in H. unfold kept_of. now rewrite H. Qed.

Lemma kept_of_rstrip b : kept_of (Py.rstrip b) = kept_of b.
Proof. unfold kept_of, accepts. now rewrite strip_rstrip. Qed.

Lemma acceptable_rstrip b : acceptable b -> Py.rstrip b <> EmptyString.
Proof. intros [H _]. now apply strip_nonempty_rstrip. Qed.

Lemma join_trimmed_at e es :
  is_delimiter (fst e) -> at_or_end (join_trimmed (e :: es)).
Proof.
  destruct e as [d b]. intros (l & Hd & _). simpl in Hd. subst d.
  right. cbn [join_trimmed String.append]. eauto.
Qed.

Lemma join_trimmed_nonempty e es :
  is_delimiter (fst e) -> join_trimmed (e :: es) <> EmptyString.
Proof.
  destruct e as [d b]. intros (l & Hd & _). simpl in Hd. subst d.
  cbn [join_trimmed String.append]. discriminate.
Qed.

(** Trimming the whole text on the right trims the last body. *)
Lemma rstrip_join_entries es :
  Forall well_formed_entry es ->
  Py.rstrip (join_entries es) = join_trimmed es.
Proof.
  induction 1 as [|[d b] es (Hd & Hb & Ha) Hes IH]; [reflexivity|].
  cbn [join_entries join_trimmed]. destruct es as [|e es].
  - cbn [join_entries]. rewrite str_app_nil_r.
    apply rstrip_app. now apply acceptable_rstrip.
  - assert (Hne : Py.rstrip (join_entries (e :: es)) <> EmptyString).
    { rewrite IH. apply join_trimmed_nonempty.
      apply Forall_inv in Hes. apply Hes. }
    rewrite rstrip_app.
    + rewrite rstrip_app by assumption. now rewrite IH.
    + now rewrite rstrip_app by assumption; intros [_ E]%str_app_eq_nil.
Qed.

Lemma join_entries_stops es :
  Forall well_formed_entry es -> stops Py.is_space (join_entries es).
Proof.
  destruct 1 as [|[d b] es ((l & Hd & _) & _) _]; [exact I|].
  simpl in Hd. subst d. reflexivity.
Qed.

Lemma strip_well_formed text es :
  well_formed text es -> Py.strip text = join_trimmed es.
Proof.
  intros (ws & Hws & -> & Hes). unfold Py.strip.
  rewrite (lstrip_spaces ws _ Hws).
  rewrite lstrip_fixed by now apply join_entries_stops.
  now apply rstrip_join_entries.
Qed.

(** The scan of well-formed text: each delimiter is a match, each body
    the text up to the next match, and the chunker keeps the bodies. *)
Lemma kept_join_trimmed es acc :
  Forall well_formed_entry es ->
  kept (Re.scan pattern_chunk_split (join_trimmed es) 0 acc)
  = kept_of acc ++ map (fun e => Py.strip (snd e)) es.
Proof.
  intros Hes. revert acc.
  induction Hes as [|[d b] es (Hd & Hb & Ha) Hes IH]; intros acc.
  - cbn [join_trimmed map]. rewrite scan_end by apply no_match_at_end.
    now rewrite kept_tail, app_nil_r.
  - simpl in Hd, Hb, Ha. cbn [join_trimmed map snd].
    rewrite (scan_hit _ d _ [(1, d)]).
    2:{ intros ->. apply is_delimiter_length in Hd. simpl in Hd. lia. }
    2:{ now apply match_at_delimiter. }
    rewrite kept_hit, (kept_of_delimiter d Hd). cbn [app]. f_equal.
    destruct es as [|e es].
    + rewrite scan_no_delimiter
        by (intros H; now apply Hb, rstrip_has_delimiter).
      cbn [String.append]. rewrite kept_tail, kept_of_rstrip.
      now rewrite kept_of_acceptable.
    + rewrite scan_no_match.
      * cbn [String.append]. rewrite IH, kept_of_acceptable by assumption.
        reflexivity.
      * apply body_no_match; [assumption|].
        apply join_trimmed_at. apply Forall_inv in Hes. apply Hes.
Qed.

(** C9. For well-formed text of [N] entries the chunker returns
    normally and appends exactly the [N] trimmed entry bodies, in source
    order. *)
Theorem extract_metadata_count_preservation
        (self : bibtexParser) (text : string) (es : list source_entry) :
  bibtex_string self = Some text ->
  well_formed text es ->
  exists self',
    extract_metadata self = Returns tt self' /\
    metadata_entries self'
    = metadata_entries self ++ map (fun e => Py.strip (snd e)) es /\
    length (metadata_entries self')
    = length (metadata_entries self) + length es.
Proof.
  intros Htext Hwf.
  rewrite (extract_metadata_segments self text Htext).
  eexists. split; [reflexivity|].
  assert (E : metadata_entries
                (set_metadata_entries self
                   (metadata_entries self
                      ++ kept (Re.scan pattern_chunk_split (Py.strip text) 0
                                 EmptyString)))
              = metadata_entries self ++ map (fun e => Py.strip (snd e)) es).
  { cbn [metadata_entries set_metadata_entries].
    rewrite (strip_well_formed text es Hwf).
    destruct Hwf as (ws & _ & _ & Hes).
    now rewrite (kept_join_trimmed es EmptyString Hes), kept_of_empty. }
  unfold kept in E. split; [exact E|].
  rewrite E, length_app, length_map. reflexivity.
Qed.

Lemma at_free_app s t : at_free (s +:+ t) = at_free s && at_free t.
Proof.
  unfold at_free. induction s as [|c s IH]; simpl; [reflexivity|].
  now rewrite IH, andb_assoc.
Qed.

(** A delimiter starts with [@]: text without [@] has none. *)
Lemma at_free_no_delimiter s : at_free s = true -> ~ has_delimiter s.
Proof.
  intros H (pre & d & post & (l & -> & _) & ->).
  rewrite at_free_app in H. apply andb_prop in H as [_ H].
  discriminate H.
Qed.

Lemma extract_metadata_count_preservation_witness :
  well_formed "@book{b1, title={X}}@book{b2, title={Y}}"
    [("@book{", "b1, title={X}}"); ("@book{", "b2, title={Y}}")] /\
  exists self',
    extract_metadata
      (set_bibtex_string (init "two.bib")
         "@book{b1, title={X}}@book{b2, title={Y}}")
    = Returns tt self' /\
    metadata_entries self'
    = [] ++ map (fun e => Py.strip (snd e))
              [("@book{", "b1, title={X}}"); ("@book{", "b2, title={Y}}")] /\
    length (metadata_entries self') = 0 + 2.
Proof.
  assert (Hd : is_delimiter "@book{").
  { exists "book". split; [reflexivity|]. split; [discriminate | reflexivity]. }
  assert (Hwf : well_formed "@book{b1, title={X}}@book{b2, title={Y}}"
                  [("@book{", "b1, title={X}}"); ("@book{", "b2, title={Y}}")]).
  { exists EmptyString. split; [reflexivity|]. split; [reflexivity|].
    repeat constructor; try exact Hd;
      try (apply at_free_no_delimiter; reflexivity);
      simpl; discriminate. }
  split; [exact Hwf|].
  exact (extract_metadata_count_preservation
           (set_bibtex_string (init "two.bib")
              "@book{b1, title={X}}@book{b2, title={Y}}")
           "@book{b1, title={X}}@book{b2, title={Y}}"
           [("@book{", "b1, title={X}}"); ("@book{", "b2, title={Y}}")]
           eq_refl Hwf).
Defined.

(** ** The matcher is sound for [matches] *)

Lemma run_sound r : forall A s cs (k : string -> Re.caps -> option A) x,
  Re.run r s cs k = Some x ->
  exists s' cs', matches r s cs s' cs' /\ k s' cs' = Some x.
Proof.
  induction r as [|set|set|set|r1 IH1 r2 IH2|r1 IH1 r2 IH2|n r IH];
    intros A s cs k x H; cbn [Re.run] in H.
  - exists s, cs. split; [constructor | assumption].
  - destruct s as [|c s]; [discriminate|].
    destruct (Re.mem set c) eqn:Hc; [|discriminate].
    exists s, cs. split; [now constructor | assumption].
  - apply star_k_sound in H as (run & rest & -> & Hrun & H).
    exists rest, cs. split; [now constructor | assumption].
  - destruct s as [|c s]; [discriminate|].
    destruct (Re.mem set c) eqn:Hc; [|discriminate].
    apply star_k_sound in H as (run & rest & -> & Hrun & H).
    exists rest, cs. split; [now constructor | assumption].
  - apply IH1 in H as (s1 & cs1 & H1 & H).
    apply IH2 in H as (s2 & cs2 & H2 & H).
    exists s2, cs2. split; [econstructor; eassumption | assumption].
  - destruct (Re.run r1 s cs k) eqn:E.
    + injection H as ->. apply IH1 in E as (s' & cs' & H1 & H).
      exists s', cs'. split; [now apply MAltL | assumption].
    + apply IH2 in H as (s' & cs' & H2 & H).
      exists s', cs'. split; [now apply MAltR | assumption].
  - apply IH in H as (s' & cs' & H1 & H).
    eexists _, _. split; [constructor; eassumption | assumption].
Qed.

Lemma match_at_sound r s adv n cs :
  Re.match_at r s adv = Some (n, cs) -> exists s', matches r s [] s' cs.
Proof.
  unfold Re.match_at. intros H. apply run_sound in H as (s' & cs' & Hm & H).
  destruct (adv && _); [discriminate|]. injection H as _ <-. eauto.
Qed.

Lemma scan_hits (P : Re.caps -> Prop) r :
  (forall s adv n cs, Re.match_at r s adv = Some (n, cs) -> P cs) ->
  forall s skip acc, Forall P (hits (Re.scan r s skip acc)).
Proof.
  intros HP. induction s as [|c s IH]; intros skip acc.
  - destruct skip; [|constructor]. rewrite scan_zero.
    destruct (Re.match_at r EmptyString false) as [[[|n] cs]|] eqn:E;
      [|constructor..].
    constructor; [eapply HP, E|].
    destruct (Re.match_at r EmptyString true) as [[[|n'] cs']|]; constructor.
  - destruct skip as [|skip]; [|apply IH]. rewrite scan_zero.
    destruct (Re.match_at r (String c s) false) as [[[|n] cs]|] eqn:E.
    + constructor; [eapply HP, E|].
      destruct (Re.match_at r (String c s) true) as [[[|n'] cs']|] eqn:E';
        [apply IH | | apply IH].
      constructor; [eapply HP, E' | apply IH].
    + constructor; [eapply HP, E | apply IH].
    + apply IH.
Qed.

(** ** The default field pattern *)

Lemma plus_consumed c run rest :
  Re.consumed (String c (run +:+ rest)) rest = String c run.
Proof. apply (consumed_app (String c run) rest). Qed.

Lemma matches_default_caps s s' cs :
  matches default_pattern s [] s' cs -> field_caps cs.
Proof.
  unfold default_pattern. intros H.
  repeat match goal with
         | H : matches (Re.Seq _ _) _ _ _ _ |- _ => inversion H; subst; clear H
         | H : matches (Re.Alt _ _) _ _ _ _ |- _ => inversion H; subst; clear H
         | H : matches (Re.Group _ _) _ _ _ _ |- _ => inversion H; subst; clear H
         | H : matches (Re.Chr _) _ _ _ _ |- _ => inversion H; subst; clear H
         | H : matches (Re.Star _) _ _ _ _ |- _ => inversion H; subst; clear H
         | H : matches (Re.Plus _) _ _ _ _ |- _ => inversion H; subst; clear H
         end;
    rewrite ?plus_consumed;
    eexists (String _ _), _; (split; [discriminate|]); eauto.
Qed.

Lemma match_at_default_caps s adv n cs :
  Re.match_at default_pattern s adv = Some (n, cs) -> field_caps cs.
Proof.
  intros H. apply match_at_sound in H as [s' H].
  eapply matches_default_caps, H.
Qed.

Lemma findall_of_hits r sc :
  Re.ngroups r = 4 ->
  Re.findall_of r sc
  = map (fun cs => map (Re.group_or_empty cs) [1; 2; 3; 4]) (hits sc).
Proof.
  intros Hr. induction sc as [|before m cs next IH]; [reflexivity|].
  cbn [Re.findall_of hits]. rewrite IH, map_cons. f_equal.
  unfold Re.findall_item. now rewrite Hr.
Qed.

(** Every item [findall] returns for the default pattern has the shape
    of a field. *)
Lemma findall_default_shaped md :
  Forall field_shaped (Re.findall default_pattern md).
Proof.
  unfold Re.findall. rewrite findall_of_hits by reflexivity.
  apply Forall_map.
  eapply Forall_impl; [apply (scan_hits field_caps), match_at_default_caps|].
  intros cs (key & v & Hk & [->|[->| ->]]); exists key, v;
    (split; [assumption|]); cbn; auto.
Qed.

(** ** Dicts *)

Lemma dict_get_set k k' v d :
  dict_get k (dict_set k' v d)
  = if (k =? k')%string then Some v else dict_get k d.
Proof.
  induction d as [|[k0 v0] d IH]; [reflexivity|].
  cbn [dict_set]. destruct (String.eqb_spec k' k0) as [->|Hne].
  - cbn [dict_get]. now destruct (k =? k0)%string.
  - cbn [dict_get]. rewrite IH.
    destruct (String.eqb_spec k k0) as [->|]; [|reflexivity].
    destruct (String.eqb_spec k0 k'); congruence.
Qed.

Lemma dict_mem_get k d : dict_mem k d = true <-> dict_get k d <> None.
Proof.
  induction d as [|[k0 v0] d IH]; cbn [dict_mem dict_get].
  - split; [discriminate | congruence].
  - destruct (k =? k0)%string; cbn; [split; [discriminate | reflexivity] | exact IH].
Qed.

Lemma dict_set_keys k v d :
  map fst (dict_set k v d)
  = if dict_mem k d then map fst d else map fst d ++ [k].
Proof.
  induction d as [|[k0 v0] d IH]; [reflexivity|].
  cbn [dict_set dict_mem]. destruct (k =? k0)%string; [reflexivity|].
  cbn [map fst orb]. rewrite IH. now destruct (dict_mem k d).
Qed.

Lemma dict_mem_keys k d : dict_mem k d = true <-> In k (map fst d).
Proof.
  induction d as [|[k0 v0] d IH]; cbn [dict_mem map fst In].
  - split; [discriminate | tauto].
  - destruct (String.eqb_spec k k0) as [->|Hne]; cbn [orb].
    + tauto.
    + rewrite IH. split; [tauto | intros [E|H]; congruence].
Qed.

(** Keys stay unique under assignment. *)
Lemma dict_set_NoDup k v d :
  NoDup (map fst d) -> NoDup (map fst (dict_set k v d)).
Proof.
  intros H. rewrite dict_set_keys. destruct (dict_mem k d) eqn:E; [assumption|].
  apply NoDup_app. split; [assumption|]. split; [|apply NoDup_singleton].
  intros x Hx%list_elem_of_In Hk%list_elem_of_In. destruct Hk as [<-|[]].
  apply dict_mem_keys in Hx. congruence.
Qed.

Lemma dict_of_fields_NoDup fields d :
  NoDup (map fst d) -> NoDup (map fst (dict_of_fields fields d)).
Proof.
  revert d. induction fields as [|f fields IH]; intros d H; [assumption|].
  apply IH, dict_set_NoDup, H.
Qed.

(** Last write wins: the dict maps [k] to the value of the last field
    with that lowercased key, or to what it held before when there is
    no such field. *)
Lemma dict_of_fields_get fields : forall d k v,
  dict_get k (dict_of_fields fields d) = Some v <->
  (exists f, last_field k f fields /\ v = VStr (snd f)) \/
  (key_absent k fields /\ dict_get k d = Some v).
Proof.
  induction fields as [|f fields IH]; intros d k v.
  - cbn. split.
    + intros H. right. split; [constructor | assumption].
    + intros [(f & (before & after & E & _) & _)|[_ H]]; [|assumption].
      now destruct before.
  - change (dict_of_fields (f :: fields) d)
      with (dict_of_fields fields
              (dict_set (Py.lower (fst f)) (VStr (snd f)) d)).
    rewrite IH, dict_get_set. split.
    + intros [(f0 & (before & after & -> & Hk & Ha) & ->)|[Ha H]].
      * left. exists f0. split; [|reflexivity].
        exists (f :: before), after. auto.
      * destruct (String.eqb_spec k (Py.lower (fst f))) as [->|Hne].
        -- injection H as <-. left. exists f. split; [|reflexivity].
           exists [], fields. auto.
        -- right. split; [|assumption]. constructor; [congruence | assumption].
    + intros [(f0 & (before & after & E & Hk & Ha) & ->)|[Ha H]].
      * destruct before as [|f1 before]; injection E as -> ->.
        -- right. split; [assumption|]. subst k. now rewrite String.eqb_refl.
        -- left. exists f0. split; [|reflexivity]. exists before, after. auto.
      * apply Forall_cons in Ha as [Hf Ha]. right. split; [assumption|].
        destruct (String.eqb_spec k (Py.lower (fst f))); congruence.
Qed.

(** ** The field parser *)

Lemma filter_field item key v :
  field_shaped item -> field_of item = Some (key, v) ->
  filter (fun x => nonempty x = true) item = [key; v].
Proof.
  intros (key' & v' & Hk & [->|[->| ->]]) H; cbn in H;
    destruct key' as [|c key']; try congruence;
    destruct v' as [|c' v']; cbn in H; try discriminate;
    injection H as <- <-; reflexivity.
Qed.

Lemma filter_field_none item :
  field_shaped item -> field_of item = None ->
  exists key, filter (fun x => nonempty x = true) item = [key].
Proof.
  intros (key' & v' & Hk & [->|[->| ->]]) H; cbn in H;
    destruct key' as [|c key']; try congruence;
    destruct v' as [|c' v']; cbn in H; try discriminate;
    eexists; reflexivity.
Qed.

Lemma dict_comprehension_fields items : forall fields d,
  Forall field_shaped items ->
  map field_of items = map Some fields ->
  dict_comprehension (map (filter (fun x => nonempty x = true)) items) d
  = Ok (dict_of_fields fields d).
Proof.
  induction items as [|item items IH]; intros fields d Hs Hf.
  - destruct fields; [reflexivity | discriminate].
  - destruct fields as [|[key v] fields]; [discriminate|].
    injection Hf as Hitem Hf. apply Forall_cons in Hs as [Hs1 Hs].
    cbn [map]. rewrite (filter_field item key v Hs1 Hitem).
    cbn [dict_comprehension]. now rewrite (IH fields _ Hs Hf).
Qed.

(** An item with no value is a tuple of one part, and the
    comprehension cannot unpack it. *)
Lemma dict_comprehension_raises items : forall d,
  Forall field_shaped items ->
  Exists (fun item => field_of item = None) items ->
  dict_comprehension (map (filter (fun x => nonempty x = true)) items) d
  = Err ValueError.
Proof.
  induction items as [|item items IH]; intros d Hs Hex.
  - inversion Hex.
  - apply Forall_cons in Hs as [Hs1 Hs]. cbn [map].
    destruct (field_of item) as [[key v]|] eqn:E.
    + rewrite (filter_field item key v Hs1 E). cbn [dict_comprehension].
      apply IH; [assumption|]. inversion Hex; subst; [congruence | assumption].
    + destruct (filter_field_none item Hs1 E) as [key ->]. reflexivity.
Qed.

Lemma parse_metadata_fields metadata fields :
  map field_of (Re.findall default_pattern metadata) = map Some fields ->
  _parse_metadata metadata (Some default_pattern)
  = Ok (Some (dict_of_fields fields [])).
Proof.
  intros H. unfold _parse_metadata.
  now rewrite (dict_comprehension_fields _ fields []
                 (findall_default_shaped metadata) H).
Qed.

(** A match whose value is empty, quoted or braced, makes the field
    parser raise. *)
Lemma parse_metadata_raises metadata :
  Exists (fun item => field_of item = None)
    (Re.findall default_pattern metadata) ->
  _parse_metadata metadata (Some default_pattern) = Err ValueError.
Proof.
  intros H. unfold _parse_metadata.
  now rewrite (dict_comprehension_raises _ []
                 (findall_default_shaped metadata) H).
Qed.

(** C6. When every match of the default pattern has a value, that is
    each item of [findall] stands for a field (key, value from
    whichever group is not empty), the field parser returns a dict with
    unique keys that maps a key to the value, verbatim, of the last
    field whose lowercased key it is, and holds nothing else; upper and
    lower case spellings of a key land on the same lowercase key. *)
Theorem parse_metadata_last_write_wins :
  (forall metadata fields,
      map field_of (Re.findall default_pattern metadata) = map Some fields ->
      exists d,
        _parse_metadata metadata (Some default_pattern) = Ok (Some d) /\
        NoDup (map fst d) /\
        forall k v,
          dict_get k d = Some v <->
          exists f, last_field k f fields /\ v = VStr (snd f)) /\
  _parse_metadata "AUTHOR = {Smith}" (Some default_pattern)
  = Ok (Some [("author", VStr "Smith")]) /\
  _parse_metadata "author = {Smith}" (Some default_pattern)
  = Ok (Some [("author", VStr "Smith")]).
Proof.
  split; [|split; reflexivity].
  intros metadata fields H. exists (dict_of_fields fields []).
  split; [now apply parse_metadata_fields|].
  split; [apply dict_of_fields_NoDup; constructor|].
  intros k v. rewrite dict_of_fields_get. split.
  - intros [Hl|[_ Hd]]; [assumption | discriminate Hd].
  - auto.
Qed.

Lemma parse_metadata_last_write_wins_witness :
  map field_of (Re.findall default_pattern "b2, TITLE={Y}, year = 1999, title = Z}")
  = map Some [("TITLE", "Y"); ("year", "1999"); ("title", "Z")] /\
  exists d,
    _parse_metadata "b2, TITLE={Y}, year = 1999, title = Z}" (Some default_pattern)
    = Ok (Some d) /\
    NoDup (map fst d) /\
    forall k v,
      dict_get k d = Some v <->
      exists f,
        last_field k f [("TITLE", "Y"); ("year", "1999"); ("title", "Z")] /\
        v = VStr (snd f).
Proof.
  split; [reflexivity|].
  apply (proj1 parse_metadata_last_write_wins
           "b2, TITLE={Y}, year = 1999, title = Z}"
           [("TITLE", "Y"); ("year", "1999"); ("title", "Z")]).
  reflexivity.
Defined.

(** C7 fails on the code: a field with an empty braced (or quoted)
    value is matched with all three value groups empty, the item
    shrinks to the key alone, and unpacking it raises [ValueError];
    [parse_bibtex] then returns [None] with no record at all. *)
Theorem parse_metadata_empty_value_raises :
  Re.findall default_pattern "k1, title = {}}"
  = [["title"; EmptyString; EmptyString; EmptyString]] /\
  _parse_metadata "k1, title = {}}" (Some default_pattern) = Err ValueError /\
  parse_bibtex (offline "e.bib" "@article{k1, title = {}}") false (init "e.bib")
  = Returns RetNone
      {| file_path := "e.bib";
         bibtex_string := Some "@article{k1, title = {}}";
         metadata_entries := ["k1, title = {}}"];
         parsed_entries := [] |}.
Proof. repeat split; reflexivity. Qed.

(** ** The parse pass *)




(** ** DOI enrichment *)

Lemma set_parsed_entries_same self :
  set_parsed_entries self (parsed_entries self) = self.
Proof. now destruct self. Qed.

Lemma set_parsed_entries_twice self l1 l2 :
  set_parsed_entries (set_parsed_entries self l1) l2 = set_parsed_entries self l2.
Proof. reflexivity. Qed.

(** The loop, on entries that are all dicts, rewrites each in place
    and returns. *)
Lemma add_urls_loop_dicts w todo : forall done self,
  parsed_entries self = done ++ todo ->
  Forall is_dict todo ->
  add_urls_loop w (length todo) (length done) self
  = Returns tt (set_parsed_entries self (done ++ map (urls_added w) todo)).
Proof.
  induction todo as [|e todo IH]; intros done self Hl Hd.
  - cbn. rewrite app_nil_r in *. now rewrite <- Hl, set_parsed_entries_same.
  - apply Forall_cons in Hd as [He Hd]. cbn [length add_urls_loop].
    rewrite Hl, list_lookup_middle by reflexivity.
    destruct e as [d|]; [|now contradiction He]. cbn [add_url_step bind].
    rewrite Hl. rewrite insert_app_r_alt by apply Nat.le_refl. rewrite Nat.sub_diag. cbn [insert list_insert].
    replace (S (length done))
      with (length (done ++ [Some (with_urls w d)]))
      by (rewrite length_app; simpl; lia).
    rewrite (IH (done ++ [Some (with_urls w d)])); [|now rewrite <- app_assoc|assumption].
    rewrite set_parsed_entries_twice, <- app_assoc. reflexivity.
Qed.

Lemma add_urls_from_doi_dicts w self :
  Forall is_dict (parsed_entries self) ->
  add_urls_from_doi w self
  = Returns tt
      (set_parsed_entries self (map (urls_added w) (parsed_entries self))).
Proof.
  intros H. unfold add_urls_from_doi.
  apply (add_urls_loop_dicts w (parsed_entries self) [] self eq_refl H).
Qed.

Lemma with_urls_failed w d doi :
  dict_get "doi" d = Some (VStr doi) ->
  head w (doi_url doi) = RequestException ->
  with_urls w d = dict_set "url" VNone (dict_set "doi_url" VNone d).
Proof.
  intros Hd Hh. unfold with_urls, _get_url_from_doi. rewrite Hd.
  fold (doi_url doi). now rewrite Hh.
Qed.

Lemma doi_url_inj a b : doi_url a = doi_url b -> a = b.
Proof. unfold doi_url. cbn. congruence. Qed.

(** The record of an entry depends on the world only through the
    lookup of its own DOI. *)
Lemma with_urls_local w1 w2 d :
  (forall doi, dict_get "doi" d = Some (VStr doi) ->
               head w1 (doi_url doi) = head w2 (doi_url doi)) ->
  with_urls w1 d = with_urls w2 d.
Proof.
  intros H. unfold with_urls, _get_url_from_doi.
  destruct (dict_get "doi" d) as [[doi|]|]; [|reflexivity..].
  fold (doi_url doi). now rewrite (H doi eq_refl).
Qed.

Lemma list_lookup_map {A B} (f : A -> B) (l : list A) i :
  map f l !! i = option_map f (l !! i).
Proof.
  revert i. induction l as [|x l IH]; intros [|i]; cbn; auto.
Qed.

(** C1, as the specification words it, fails: after a failed lookup
    the record does hold the keys [doi_url] and [url], both [None]. *)
Lemma doi_failure_keys_present :
  ~ (forall w self i d doi,
        Forall is_dict (parsed_entries self) ->
        parsed_entries self !! i = Some (Some d) ->
        dict_get "doi" d = Some (VStr doi) ->
        head w (doi_url doi) = RequestException ->
        exists self' d',
          add_urls_from_doi w self = Returns tt self' /\
          parsed_entries self' !! i = Some (Some d') /\
          dict_mem "doi_url" d' = false /\ dict_mem "url" d' = false).
Proof.
  intros H.
  destruct (H (offline "a.bib" EmptyString)
              (set_parsed_entries (init "a.bib") [Some [("doi", VStr "10.1/x")]])
              0 [("doi", VStr "10.1/x")] "10.1/x")
    as (self' & d' & Hrun & Hi & Hk & _);
    [repeat constructor; discriminate | reflexivity..|].
  vm_compute in Hrun. injection Hrun as <-.
  vm_compute in Hi. injection Hi as <-. discriminate Hk.
Qed.

(** C1, amended. When the lookup for the DOI of entry [i] fails with a
    request error, [add_urls_from_doi] returns normally; the record of
    entry [i] holds [doi_url] and [url], both [None], and its other
    keys as before; the list keeps its length; and the record of every
    entry with another DOI, or none, is what it is in any world that
    differs only in the answer to the failed lookup. *)
Theorem doi_failure_isolated
        (w : world) (self : bibtexParser) (i : nat) (d : pydict) (doi : string) :
  Forall is_dict (parsed_entries self) ->
  parsed_entries self !! i = Some (Some d) ->
  dict_get "doi" d = Some (VStr doi) ->
  head w (doi_url doi) = RequestException ->
  exists self' d',
    add_urls_from_doi w self = Returns tt self' /\
    parsed_entries self' !! i = Some (Some d') /\
    dict_get "doi_url" d' = Some VNone /\
    dict_get "url" d' = Some VNone /\
    (forall k, k <> "doi_url" -> k <> "url" -> dict_get k d' = dict_get k d) /\
    length (parsed_entries self') = length (parsed_entries self) /\
    forall w2,
      (forall u, u <> doi_url doi -> head w2 u = head w u) ->
      exists self2,
        add_urls_from_doi w2 self = Returns tt self2 /\
        forall j dj,
          parsed_entries self !! j = Some (Some dj) ->
          dict_get "doi" dj <> Some (VStr doi) ->
          parsed_entries self2 !! j = parsed_entries self' !! j.
Proof.
  intros Hd Hi Hdoi Hfail.
  exists (set_parsed_entries self (map (urls_added w) (parsed_entries self))),
         (dict_set "url" VNone (dict_set "doi_url" VNone d)).
  split; [now apply add_urls_from_doi_dicts|].
  cbn [parsed_entries set_parsed_entries]. split.
  { rewrite list_lookup_map. unfold entry in *. rewrite Hi. cbn.
    now rewrite (with_urls_failed w d doi). }
  split; [now rewrite !dict_get_set|]. split; [now rewrite !dict_get_set|].
  split.
  { intros k Hk1 Hk2. rewrite !dict_get_set.
    destruct (String.eqb_spec k "url"); [congruence|].
    destruct (String.eqb_spec k "doi_url"); [congruence | reflexivity]. }
  split; [apply length_map|].
  intros w2 Hw2.
  exists (set_parsed_entries self (map (urls_added w2) (parsed_entries self))).
  split; [now apply add_urls_from_doi_dicts|].
  intros j dj Hj Hne. cbn [parsed_entries set_parsed_entries].
  rewrite !list_lookup_map. unfold entry in *. rewrite Hj. cbn. do 2 f_equal.
  apply with_urls_local. intros doi' Hdoi'. apply Hw2.
  intros E. apply doi_url_inj in E. congruence.
Qed.

Lemma doi_failure_isolated_witness :
  exists self' d',
    add_urls_from_doi (offline "a.bib" EmptyString)
      (set_parsed_entries (init "a.bib")
         [Some [("doi", VStr "10.1/x")]; Some [("title", VStr "T")]])
    = Returns tt self' /\
    parsed_entries self' !! 0 = Some (Some d') /\
    dict_get "doi_url" d' = Some VNone /\
    dict_get "url" d' = Some VNone /\
    (forall k, k <> "doi_url" -> k <> "url" ->
               dict_get k d' = dict_get k [("doi", VStr "10.1/x")]) /\
    length (parsed_entries self') = 2 /\
    forall w2,
      (forall u, u <> doi_url "10.1/x" ->
                 head w2 u = head (offline "a.bib" EmptyString) u) ->
      exists self2,
        add_urls_from_doi w2
          (set_parsed_entries (init "a.bib")
             [Some [("doi", VStr "10.1/x")]; Some [("title", VStr "T")]])
        = Returns tt self2 /\
        forall j dj,
          [Some [("doi", VStr "10.1/x")]; Some [("title", VStr "T")]] !! j
          = Some (Some dj) ->
          dict_get "doi" dj <> Some (VStr "10.1/x") ->
          parsed_entries self2 !! j = parsed_entries self' !! j.
Proof.
  apply (doi_failure_isolated (offline "a.bib" EmptyString)
           (set_parsed_entries (init "a.bib")
              [Some [("doi", VStr "10.1/x")]; Some [("title", VStr "T")]])
           0 [("doi", VStr "10.1/x")] "10.1/x").
  - repeat constructor; discriminate.
  - reflexivity.
  - reflexivity.
  - reflexivity.
Defined.

(** ** The pipeline *)



Lemma parse_bibtex_stages w json self :
  parse_bibtex w json self
  = match stages w self with
    | Returns _ self' =>
        Returns (if json then RetNone else RetParsedEntries) self'
    | Raises _ self' => Returns RetNone self'
    end.
Proof.
  unfold parse_bibtex, parse_bibtex_body. fold (stages w self).
  destruct (stages w self) as [[] self'|e self']; [|reflexivity].
  now destruct json.
Qed.




(** C8, as the specification words it, fails: with the text unset,
    [extract_metadata] calls [strip] on [None] and raises. *)
Lemma extract_metadata_unset_raises :
  read_bibtex_file (offline "a.bib" EmptyString) (init "notes.txt")
  = Returns tt (init "notes.txt") /\
  bibtex_string (init "notes.txt") = None /\
  extract_metadata (init "notes.txt")
  = Raises AttributeError (init "notes.txt") /\
  ~ (forall w path,
        Py.endswith path ".bib" = false \/ fs w path = Absent ->
        exists self',
          extract_metadata (state_of (read_bibtex_file w (init path)))
          = Returns tt self').
Proof.
  repeat (split; [reflexivity|]). intros H.
  destruct (H (offline "a.bib" EmptyString) "notes.txt") as [self' Hrun];
    [now left | discriminate Hrun].
Qed.

(** C8, amended. After a validation failure on a fresh parser the
    text stays unset; [extract_metadata] raises [AttributeError];
    [parse_bibtex] catches it, runs no later stage, leaves the parser
    as [__init__] made it and returns [None]; [parse_metadata] and
    [add_urls_from_doi], run on that parser, return and change
    nothing. *)
Theorem unset_text_handling (w : world) (path : string) (json : bool) :
  Py.endswith path ".bib" = false \/ fs w path = Absent ->
  read_bibtex_file w (init path) = Returns tt (init path) /\
  bibtex_string (init path) = None /\
  extract_metadata (init path) = Raises AttributeError (init path) /\
  parse_metadata PatDefault (init path) = Returns tt (init path) /\
  add_urls_from_doi w (init path) = Returns tt (init path) /\
  parse_bibtex w json (init path) = Returns RetNone (init path).
Proof.
  intros H.
  assert (Hread : read_bibtex_file w (init path) = Returns tt (init path)).
  { unfold read_bibtex_file. cbn [file_path init].
    destruct H as [-> | ->]; [reflexivity|].
    now destruct (negb (Py.endswith path ".bib")). }
  split; [exact Hread|]. repeat (split; [reflexivity|]).
  rewrite parse_bibtex_stages. unfold stages. now rewrite Hread.
Qed.

Lemma unset_text_handling_witness :
  (Py.endswith "notes.txt" ".bib" = false \/
   fs (offline "a.bib" EmptyString) "notes.txt" = Absent) /\
  read_bibtex_file (offline "a.bib" EmptyString) (init "notes.txt")
  = Returns tt (init "notes.txt") /\
  bibtex_string (init "notes.txt") = None /\
  extract_metadata (init "notes.txt")
  = Raises AttributeError (init "notes.txt") /\
  parse_metadata PatDefault (init "notes.txt") = Returns tt (init "notes.txt") /\
  add_urls_from_doi (offline "a.bib" EmptyString) (init "notes.txt")
  = Returns tt (init "notes.txt") /\
  parse_bibtex (offline "a.bib" EmptyString) true (init "notes.txt")
  = Returns RetNone (init "notes.txt").
Proof.
  split; [left; reflexivity|].
  apply (unset_text_handling (offline "a.bib" EmptyString) "notes.txt" true).
  left. reflexivity.
Defined.

(** C10. [parse_bibtex] never raises.  With [json=True] it returns
    [None] whatever the stages did: when they complete, the JSON text
    [extract_parsed_entries] builds is dropped.  With [json=False] it
    returns the parser's list of records when the stages complete and
    [None] when one of them raised; no other call returns the list. *)
Theorem parse_bibtex_json_returns_none (w : world) (self : bibtexParser) :
  parse_bibtex w true self = Returns RetNone (state_of (stages w self)) /\
  output (parse_bibtex w true self) = None /\
  (forall self',
      stages w self = Returns tt self' ->
      extract_parsed_entries self'
      = Returns (Json.dumps (parsed_entries self')) self' /\
      parse_bibtex_body w true self = Returns RetNone self') /\
  parse_bibtex w false self
  = match stages w self with
    | Returns _ self' => Returns RetParsedEntries self'
    | Raises _ self' => Returns RetNone self'
    end /\
  (forall json l,
      output (parse_bibtex w json self) = Some l ->
      json = false /\
      exists self', stages w self = Returns tt self' /\ l = parsed_entries self').
Proof.
  split; [|split; [|split; [|split]]].
  - rewrite parse_bibtex_stages. now destruct (stages w self).
  - rewrite parse_bibtex_stages. now destruct (stages w self).
  - intros self' H. split; [reflexivity|].
    unfold parse_bibtex_body. fold (stages w self). now rewrite H.
  - apply parse_bibtex_stages.
  - intros json l. rewrite parse_bibtex_stages.
    destruct (stages w self) as [[] self'|e self'], json; cbn;
      try discriminate.
    intros [= <-]. eauto.
Qed.

(** The placeholder of a chunk with no field is the empty dict. *)
Example parse_pass_placeholder :
  parse_metadata PatDefault
    (set_metadata_entries (init "a.bib") ["b1, title={X}}"; "no fields here"])
  = Returns tt
      {| file_path := "a.bib";
         bibtex_string := None;
         metadata_entries := ["b1, title={X}}"; "no fields here"];
         parsed_entries := [Some [("title", VStr "X")]; Some []] |}.
Proof. reflexivity. Qed.




(** * Further properties of the code *)

(** ** Reading the file *)

Lemma endswith_app pre suffix : Py.endswith (pre +:+ suffix) suffix = true.
Proof.
  induction pre as [|c pre IH]; cbn [String.append].
  - destruct suffix; cbn; now rewrite ?String.eqb_refl, ?Ascii.eqb_refl.
  - cbn [Py.endswith]. rewrite IH. apply orb_true_r.
Qed.

Lemma endswith_spec s suffix :
  Py.endswith s suffix = true <-> exists pre, s = pre +:+ suffix.
Proof.
  split.
  - induction s as [|c s IH]; cbn [Py.endswith]; intros H.
    + rewrite orb_false_r in H. apply String.eqb_eq in H as <-.
      now exists EmptyString.
    + apply orb_prop in H as [H|H].
      * apply String.eqb_eq in H as <-. now exists EmptyString.
      * destruct (IH H) as [pre ->]. now exists (String c pre).
  - intros [pre ->]. apply endswith_app.
Qed.

(** X1. [read_bibtex_file] never raises and touches nothing but the
    text: it stores the content when the path ends in [.bib] and the
    file can be read, and otherwise leaves the parser exactly as it
    was, a text read earlier included. *)
Theorem read_bibtex_file_spec (w : world) (self : bibtexParser) :
  exists self',
    read_bibtex_file w self = Returns tt self' /\
    file_path self' = file_path self /\
    metadata_entries self' = metadata_entries self /\
    parsed_entries self' = parsed_entries self /\
    ((exists stem text,
         file_path self = stem +:+ ".bib" /\
         fs w (file_path self) = Content text /\
         bibtex_string self' = Some text) \/
     (~ (exists stem text,
            file_path self = stem +:+ ".bib" /\
            fs w (file_path self) = Content text) /\
      self' = self)).
Proof.
  unfold read_bibtex_file.
  destruct (Py.endswith (file_path self) ".bib") eqn:E; cbn [negb].
  - apply endswith_spec in E as [stem E].
    destruct (fs w (file_path self)) as [| |text] eqn:F.
    + exists self. repeat split; try reflexivity.
      right. split; [|reflexivity]. intros (? & ? & _ & ?). discriminate.
    + exists self. repeat split; try reflexivity.
      right. split; [|reflexivity]. intros (? & ? & _ & ?). discriminate.
    + exists (set_bibtex_string self text). repeat split; try reflexivity.
      left. exists stem, text. auto.
  - exists self. repeat split; try reflexivity.
    right. split; [|reflexivity]. intros (stem & text & Hp & _).
    rewrite Hp, endswith_app in E. discriminate.
Qed.

(** ** What the chunker stores *)

Lemma strip_accepted seg :
  accepts seg = true ->
  Py.strip seg <> EmptyString /\
  Py.strip (Py.strip seg) = Py.strip seg /\
  String.get 0 (Py.strip seg) <> Some "@"%char.
Proof.
  intros H. apply accepts_acceptable in H as [H1 H2].
  split; [assumption|]. split; [apply strip_idem | assumption].
Qed.

(** X2. On any text [extract_metadata] returns normally, changes
    nothing but [metadata_entries], and only appends to it; every chunk
    it appends is non-empty, carries no whitespace at either end and
    does not begin with [@]. *)
Theorem extract_metadata_chunks (self : bibtexParser) (text : string) :
  bibtex_string self = Some text ->
  exists new,
    extract_metadata self
    = Returns tt (set_metadata_entries self (metadata_entries self ++ new)) /\
    Forall (fun m => m <> EmptyString /\ Py.strip m = m /\
                     String.get 0 m <> Some "@"%char) new.
Proof.
  intros H. rewrite (extract_metadata_segments self text H).
  eexists. split; [reflexivity|].
  apply Forall_map, Forall_forall. intros seg Hseg.
  apply list_elem_of_filter in Hseg as [Ha _].
  now apply strip_accepted.
Qed.

Lemma extract_metadata_chunks_witness :
  exists new,
    extract_metadata
      (set_bibtex_string (init "a.bib") "  % list  @book{ b1, title={X}}  ")
    = Returns tt
        (set_metadata_entries
           (set_bibtex_string (init "a.bib") "  % list  @book{ b1, title={X}}  ")
           ([] ++ new)) /\
    Forall (fun m => m <> EmptyString /\ Py.strip m = m /\
                     String.get 0 m <> Some "@"%char) new.
Proof.
  apply (extract_metadata_chunks
           (set_bibtex_string (init "a.bib") "  % list  @book{ b1, title={X}}  ")
           "  % list  @book{ b1, title={X}}  ").
  reflexivity.
Defined.

Lemma all_space_lstrip s : all_space s = true -> Py.lstrip s = EmptyString.
Proof.
  induction s as [|c s IH]; cbn; [reflexivity|].
  intros H. apply andb_prop in H as [-> H]. auto.
Qed.

Lemma all_space_strip s : all_space s = true -> Py.strip s = EmptyString.
Proof. intros H. unfold Py.strip. now rewrite all_space_lstrip. Qed.

Lemma set_metadata_entries_same self :
  set_metadata_entries self (metadata_entries self ++ []) = self.
Proof. rewrite app_nil_r. now destruct self. Qed.

(** X3. A file that is empty or holds only whitespace gives no chunk:
    [extract_metadata] leaves the parser as it is, and [parse_bibtex]
    on a fresh parser returns normally with the empty list of
    records. *)
Theorem blank_text_no_entries (w : world) (stem text : string) :
  all_space text = true ->
  fs w (stem +:+ ".bib") = Content text ->
  (forall self,
      bibtex_string self = Some text ->
      extract_metadata self = Returns tt self) /\
  parse_bibtex w false (init (stem +:+ ".bib"))
  = Returns RetParsedEntries (set_bibtex_string (init (stem +:+ ".bib")) text) /\
  output (parse_bibtex w false (init (stem +:+ ".bib"))) = Some [].
Proof.
  intros Hblank Hfs.
  assert (Hex : forall self, bibtex_string self = Some text ->
                             extract_metadata self = Returns tt self).
  { intros self H. rewrite (extract_metadata_segments self text H).
    rewrite (all_space_strip text Hblank).
    rewrite scan_end by apply no_match_at_end. cbn [segments].
    rewrite filter_cons, decide_False by discriminate.
    cbn [filter map]. now rewrite set_metadata_entries_same. }
  split; [exact Hex|].
  assert (Hrun : parse_bibtex w false (init (stem +:+ ".bib"))
                 = Returns RetParsedEntries
                     (set_bibtex_string (init (stem +:+ ".bib")) text)).
  { rewrite parse_bibtex_stages. unfold stages, read_bibtex_file.
    cbn [file_path init]. rewrite endswith_app, Hfs. cbn [negb bind].
    now rewrite Hex. }
  split; [exact Hrun | now rewrite Hrun].
Qed.

Lemma blank_text_no_entries_witness :
  (forall self,
      bibtex_string self = Some "   " ->
      extract_metadata self = Returns tt self) /\
  parse_bibtex (offline "empty.bib" "   ") false (init ("empty" +:+ ".bib"))
  = Returns RetParsedEntries
      (set_bibtex_string (init ("empty" +:+ ".bib")) "   ") /\
  output (parse_bibtex (offline "empty.bib" "   ") false
            (init ("empty" +:+ ".bib"))) = Some [].
Proof.
  apply (blank_text_no_entries (offline "empty.bib" "   ") "empty" "   ");
    reflexivity.
Defined.

(** ** Text around the entries *)

Lemma lstrip_app_nonblank s t :
  Py.lstrip s <> EmptyString -> Py.lstrip (s +:+ t) = Py.lstrip s +:+ t.
Proof.
  induction s as [|c s IH]; cbn; [congruence|].
  destruct (Py.is_space c); [exact IH | reflexivity].
Qed.

Lemma lstrip_has_delimiter s : has_delimiter (Py.lstrip s) -> has_delimiter s.
Proof.
  intros (pre & d & post & Hd & E).
  destruct (lstrip_suffix s) as (ws & _ & E1). rewrite E in E1.
  exists (ws +:+ pre), d, post. split; [assumption|].
  rewrite E1. now rewrite !str_app_assoc.
Qed.

Lemma lstrip_idem s : Py.lstrip (Py.lstrip s) = Py.lstrip s.
Proof. apply lstrip_fixed, lstrip_stops. Qed.

Lemma strip_lstrip s : Py.strip (Py.lstrip s) = Py.strip s.
Proof. unfold Py.strip. now rewrite lstrip_idem. Qed.

Lemma kept_of_lstrip s : kept_of (Py.lstrip s) = kept_of s.
Proof. unfold kept_of, accepts. now rewrite strip_lstrip. Qed.

Lemma acceptable_lstrip s : acceptable s -> Py.lstrip s <> EmptyString.
Proof. intros [H _] E. unfold Py.strip in H. now rewrite E in H. Qed.

(** X4. Text that stands before the first entry (a comment, a
    heading) and is not blank is stored as a chunk of its own, ahead of
    the entry bodies: with [N] entries the chunker appends [N + 1]
    chunks. *)
Theorem preamble_is_a_chunk
        (self : bibtexParser) (pre : string) (e : source_entry)
        (es : list source_entry) :
  bibtex_string self = Some (pre +:+ join_entries (e :: es)) ->
  acceptable pre -> ~ has_delimiter pre ->
  Forall well_formed_entry (e :: es) ->
  extract_metadata self
  = Returns tt
      (set_metadata_entries self
         (metadata_entries self
            ++ Py.strip pre :: map (fun e => Py.strip (snd e)) (e :: es))).
Proof.
  intros Htext Hpre Hno Hes.
  rewrite (extract_metadata_segments self _ Htext). do 3 f_equal.
  fold (kept (Re.scan pattern_chunk_split
                (Py.strip (pre +:+ join_entries (e :: es))) 0 EmptyString)).
  unfold Py.strip at 1.
  rewrite lstrip_app_nonblank by now apply acceptable_lstrip.
  rewrite rstrip_app.
  2:{ rewrite rstrip_join_entries by assumption.
      apply join_trimmed_nonempty. apply Forall_inv in Hes. apply Hes. }
  rewrite rstrip_join_entries by assumption.
  rewrite scan_no_match.
  - cbn [String.append]. rewrite kept_join_trimmed by assumption.
    now rewrite kept_of_lstrip, kept_of_acceptable.
  - apply body_no_match.
    + intros H. now apply Hno, lstrip_has_delimiter.
    + apply join_trimmed_at. apply Forall_inv in Hes. apply Hes.
Qed.

Lemma preamble_is_a_chunk_witness :
  extract_metadata
    (set_bibtex_string (init "a.bib")
       ("% my books " +:+ join_entries [("@book{", "b1, title={X}}")]))
  = Returns tt
      (set_metadata_entries
         (set_bibtex_string (init "a.bib")
            ("% my books " +:+ join_entries [("@book{", "b1, title={X}}")]))
         ([] ++ Py.strip "% my books "
             :: map (fun e => Py.strip (snd e)) [("@book{", "b1, title={X}}")])).
Proof.
  apply (preamble_is_a_chunk
           (set_bibtex_string (init "a.bib")
              ("% my books " +:+ join_entries [("@book{", "b1, title={X}}")]))
           "% my books " ("@book{", "b1, title={X}}") []).
  - reflexivity.
  - split; cbn; discriminate.
  - apply at_free_no_delimiter. reflexivity.
  - repeat constructor.
    + exists "book". split; [reflexivity|]. split; [discriminate | reflexivity].
    + apply at_free_no_delimiter. reflexivity.
    + cbn. discriminate.
    + cbn. discriminate.
Defined.

Lemma extract_metadata_well_formed self text es :
  bibtex_string self = Some text ->
  well_formed text es ->
  extract_metadata self
  = Returns tt
      (set_metadata_entries self
         (metadata_entries self ++ map (fun e => Py.strip (snd e)) es)).
Proof.
  intros Htext Hwf. rewrite (extract_metadata_segments self text Htext).
  do 3 f_equal.
  fold (kept (Re.scan pattern_chunk_split (Py.strip text) 0 EmptyString)).
  rewrite (strip_well_formed text es Hwf).
  destruct Hwf as (ws & _ & _ & Hes).
  now rewrite (kept_join_trimmed es EmptyString Hes), kept_of_empty.
Qed.

(** X5. The entry type never reaches the chunks: two well-formed
    texts whose entries have the same bodies, whatever their delimiters
    and leading whitespace, give the same chunks. *)
Theorem entry_type_is_dropped
        (self1 self2 : bibtexParser) (text1 text2 : string)
        (es1 es2 : list source_entry) :
  bibtex_string self1 = Some text1 ->
  bibtex_string self2 = Some text2 ->
  well_formed text1 es1 ->
  well_formed text2 es2 ->
  map snd es1 = map snd es2 ->
  metadata_entries self1 = metadata_entries self2 ->
  exists self1' self2',
    extract_metadata self1 = Returns tt self1' /\
    extract_metadata self2 = Returns tt self2' /\
    metadata_entries self1' = metadata_entries self2'.
Proof.
  intros H1 H2 Hw1 Hw2 Hb Hm.
  rewrite (extract_metadata_well_formed self1 text1 es1 H1 Hw1).
  rewrite (extract_metadata_well_formed self2 text2 es2 H2 Hw2).
  eexists _, _. split; [reflexivity|]. split; [reflexivity|].
  cbn [metadata_entries set_metadata_entries]. rewrite Hm. f_equal.
  rewrite <- (map_map snd Py.strip es1), <- (map_map snd Py.strip es2).
  now rewrite Hb.
Qed.

Lemma entry_type_is_dropped_witness :
  exists self1' self2',
    extract_metadata (set_bibtex_string (init "a.bib") "@book{b1, title={X}}")
    = Returns tt self1' /\
    extract_metadata
      (set_bibtex_string (init "a.bib") "  @article{b1, title={X}}")
    = Returns tt self2' /\
    metadata_entries self1' = metadata_entries self2'.
Proof.
  apply (entry_type_is_dropped
           (set_bibtex_string (init "a.bib") "@book{b1, title={X}}")
           (set_bibtex_string (init "a.bib") "  @article{b1, title={X}}")
           "@book{b1, title={X}}" "  @article{b1, title={X}}"
           [("@book{", "b1, title={X}}")] [("@article{", "b1, title={X}}")]);
    try reflexivity.
  - exists EmptyString. split; [reflexivity|]. split; [reflexivity|].
    repeat constructor.
    + exists "book". split; [reflexivity|]. split; [discriminate | reflexivity].
    + apply at_free_no_delimiter. reflexivity.
    + cbn. discriminate.
    + cbn. discriminate.
  - exists "  ". split; [reflexivity|]. split; [reflexivity|].
    repeat constructor.
    + exists "article". split; [reflexivity|]. split; [discriminate | reflexivity].
    + apply at_free_no_delimiter. reflexivity.
    + cbn. discriminate.
    + cbn. discriminate.
Defined.

(** ** The split loses nothing *)

Lemma match_at_length r s adv n cs :
  Re.match_at r s adv = Some (n, cs) -> n <= String.length s.
Proof.
  unfold Re.match_at. intros H. apply run_sound in H as (s' & cs' & _ & H).
  destruct (adv && _); [discriminate|]. injection H as <- _. lia.
Qed.

Lemma take_drop_str n s : Re.take_str n s +:+ drop_str n s = s.
Proof.
  revert s. induction n as [|n IH]; intros [|c s]; cbn; try reflexivity.
  now rewrite IH.
Qed.

Lemma scan_concat r : forall s skip acc,
  skip <= String.length s ->
  concat_str (segments (Re.scan r s skip acc)) = acc +:+ drop_str skip s.
Proof.
  induction s as [|c s IH]; intros skip acc Hskip.
  - cbn in Hskip. assert (skip = 0) as -> by lia. rewrite scan_zero.
    destruct (Re.match_at r EmptyString false) as [[[|n] cs]|] eqn:E;
      cbn; rewrite ?str_app_nil_r; try reflexivity.
    destruct (Re.match_at r EmptyString true) as [[[|n'] cs']|]; cbn;
      now rewrite ?str_app_nil_r.
  - destruct skip as [|skip].
    + rewrite scan_zero. cbn [drop_str].
      destruct (Re.match_at r (String c s) false) as [[[|n] cs]|] eqn:E.
      * cbn [segments concat_str String.append]. f_equal.
        destruct (Re.match_at r (String c s) true) as [[[|n'] cs']|] eqn:E'.
        -- now rewrite IH by (cbn; lia).
        -- apply match_at_length in E'. cbn in E'.
           cbn [segments concat_str String.append].
           rewrite IH by lia. cbn [String.append].
           change (String c (Re.take_str n' s)) with (Re.take_str (S n') (String c s)).
           change (drop_str n' s) with (drop_str (S n') (String c s)).
           apply take_drop_str.
        -- now rewrite IH by (cbn; lia).
      * apply match_at_length in E. cbn in E.
        cbn [segments concat_str]. rewrite IH by lia. cbn [String.append].
        f_equal.
        change (drop_str n s) with (drop_str (S n) (String c s)).
        apply take_drop_str.
      * rewrite IH by (cbn; lia). cbn [drop_str]. now rewrite str_app_assoc.
    + cbn [Re.scan drop_str]. apply IH. cbn in Hskip. lia.
Qed.

(** X6. Splitting loses no text: the segments [extract_metadata]
    iterates over, which are the items of the split, written one after
    the other give back the trimmed text. *)
Theorem split_is_lossless (text : string) :
  exists segs,
    Re.split pattern_chunk_split (Py.strip text) = map Some segs /\
    concat_str segs = Py.strip text.
Proof.
  exists (segments (Re.scan pattern_chunk_split (Py.strip text) 0 EmptyString)).
  split; [apply split_chunk_segments|].
  rewrite scan_concat by lia. reflexivity.
Qed.

(** ** What the default pattern captures *)

Lemma matches_default_capture s s' cs :
  matches default_pattern s [] s' cs -> field_capture cs.
Proof.
  unfold default_pattern. intros H.
  repeat match goal with
         | H : matches (Re.Seq _ _) _ _ _ _ |- _ => inversion H; subst; clear H
         | H : matches (Re.Alt _ _) _ _ _ _ |- _ => inversion H; subst; clear H
         | H : matches (Re.Group _ _) _ _ _ _ |- _ => inversion H; subst; clear H
         | H : matches (Re.Chr _) _ _ _ _ |- _ => inversion H; subst; clear H
         | H : matches (Re.Star _) _ _ _ _ |- _ => inversion H; subst; clear H
         | H : matches (Re.Plus _) _ _ _ _ |- _ => inversion H; subst; clear H
         end;
    rewrite ?plus_consumed, ?consumed_app;
    match goal with
    | |- field_capture [(_, ?v); (1, ?k)] => exists k, v
    end;
    (split; [discriminate|]);
    (split; [cbn [all_in]; apply andb_true_intro; split; assumption|]).
  - left. split; [reflexivity | assumption].
  - right. left. split; [reflexivity | assumption].
  - right. right. split; [reflexivity|].
    cbn [all_in]. apply andb_true_intro. split; assumption.
Qed.

Lemma match_at_default_capture s adv n cs :
  Re.match_at default_pattern s adv = Some (n, cs) -> field_capture cs.
Proof.
  intros H. apply match_at_sound in H as [s' H].
  eapply matches_default_capture, H.
Qed.

(** X7. Whatever the metadata, every item [findall] returns for the
    default pattern has a key that is a non-empty run of word
    characters, a quoted value free of double quotes, a braced value
    free of closing braces and a bare value made of word characters,
    and at most one of the three values is not empty. *)
Theorem findall_default_items (metadata : string) :
  Forall field_item (Re.findall default_pattern metadata).
Proof.
  unfold Re.findall. rewrite findall_of_hits by reflexivity.
  apply Forall_map.
  eapply Forall_impl;
    [apply (scan_hits field_capture), match_at_default_capture|].
  intros cs (key & v & Hk & Hw & [[-> Hv]|[[-> Hv]|[-> Hv]]]).
  - exists key, v, EmptyString, EmptyString. cbn. repeat split; auto.
  - exists key, EmptyString, v, EmptyString. cbn. repeat split; auto.
  - exists key, EmptyString, EmptyString, v. cbn. repeat split; auto.
Qed.

(** ** What a parsed record looks like *)

Lemma lower_char_idem c : Py.lower_char (Py.lower_char c) = Py.lower_char c.
Proof. destruct c as [[] [] [] [] [] [] [] []]; reflexivity. Qed.

Lemma lower_idem s : Py.lower (Py.lower s) = Py.lower s.
Proof.
  induction s as [|c s IH]; cbn; [reflexivity|].
  now rewrite lower_char_idem, IH.
Qed.

Lemma lower_nonempty s : s <> EmptyString -> Py.lower s <> EmptyString.
Proof. destruct s; cbn; [congruence | discriminate]. Qed.

Lemma dict_set_clean k v d :
  clean_item (k, v) -> Forall clean_item d -> Forall clean_item (dict_set k v d).
Proof.
  intros Hkv Hd. induction Hd as [|[k0 v0] d H0 Hd IH]; cbn [dict_set].
  - constructor; [exact Hkv | constructor].
  - destruct (String.eqb_spec k k0) as [->|Hne]; constructor; assumption.
Qed.

Lemma dict_comprehension_clean matches : forall d0 d,
  Forall (Forall (fun x => x <> EmptyString)) matches ->
  dict_comprehension matches d0 = Ok d ->
  Forall clean_item d0 /\ NoDup (map fst d0) ->
  Forall clean_item d /\ NoDup (map fst d).
Proof.
  induction matches as [|item matches IH]; intros d0 d Hne Hrun [Hc Hn].
  - injection Hrun as <-. auto.
  - apply Forall_cons in Hne as [Hitem Hne].
    destruct item as [|key [|val [|? ?]]]; try discriminate Hrun.
    cbn [dict_comprehension] in Hrun.
    apply Forall_cons in Hitem as [Hkey Hitem].
    apply Forall_cons in Hitem as [Hval _].
    apply (IH _ _ Hne Hrun). split; [|now apply dict_set_NoDup].
    apply dict_set_clean; [|assumption].
    split; [apply lower_idem|]. split; [now apply lower_nonempty|].
    exists val. auto.
Qed.

Lemma filtered_nonempty (items : list (list string)) :
  Forall (Forall (fun x => x <> EmptyString))
    (map (filter (fun x => nonempty x = true)) items).
Proof.
  apply Forall_map, Forall_forall. intros item _.
  apply Forall_forall. intros x Hx.
  apply list_elem_of_filter in Hx as [Hx _]. now destruct x.
Qed.

(** X8. Whatever the pattern, a dict the field parser returns has
    unique keys, every key lowercase and not empty, and every value a
    string that is not empty. *)
Theorem parsed_record_is_clean
        (metadata : string) (r : Re.regex) (d : pydict) :
  _parse_metadata metadata (Some r) = Ok (Some d) ->
  NoDup (map fst d) /\ Forall clean_item d.
Proof.
  unfold _parse_metadata.
  destruct (dict_comprehension _ _) as [d'|e] eqn:E; [|discriminate].
  intros [= <-].
  destruct (dict_comprehension_clean _ [] d' (filtered_nonempty _) E) as [Hc Hn].
  - split; constructor.
  - auto.
Qed.

Lemma parsed_record_is_clean_witness :
  NoDup (map fst [("title", VStr "Z"); ("year", VStr "1999")]) /\
  Forall clean_item [("title", VStr "Z"); ("year", VStr "1999")].
Proof.
  apply (parsed_record_is_clean "b2, TITLE={Y}, year = 1999, title = Z}"
           default_pattern).
  reflexivity.
Defined.

(** ** Running the matcher forwards *)

Section Forwards.

Context {A : Type}.
Implicit Types (k : string -> Re.caps -> option A) (x : A).

Lemma star_k_run_first p (k' : string -> option A) run rest x :
  all_in p run = true -> stops p rest -> k' rest = Some x ->
  Re.star_k p (run +:+ rest) k' = Some x.
Proof.
  intros Hrun Hstop Hk. induction run as [|c run IH]; cbn in *.
  - destruct rest as [|c t]; [assumption|]. cbn in *. now rewrite Hstop.
  - apply andb_prop in Hrun as [-> Hrun]. now rewrite (IH Hrun).
Qed.

Lemma run_seq r1 r2 s cs k x :
  Re.run r1 s cs (fun s' cs' => Re.run r2 s' cs' k) = Some x ->
  Re.run (Re.Seq r1 r2) s cs k = Some x.
Proof. intros H. exact H. Qed.

Lemma run_group n r s cs k x :
  Re.run r s cs (fun s' cs' => k s' ((n, Re.consumed s s') :: cs')) = Some x ->
  Re.run (Re.Group n r) s cs k = Some x.
Proof. intros H. exact H. Qed.

Lemma run_chr set c s cs k x :
  Re.mem set c = true -> k s cs = Some x ->
  Re.run (Re.Chr set) (String c s) cs k = Some x.
Proof. intros Hc H. cbn. now rewrite Hc. Qed.

Lemma run_chr_fails set c s cs k :
  Re.mem set c = false -> Re.run (Re.Chr set) (String c s) cs k = None.
Proof. intros Hc. cbn. now rewrite Hc. Qed.

Lemma run_star set run rest cs k x :
  all_in (Re.mem set) run = true -> stops (Re.mem set) rest ->
  k rest cs = Some x ->
  Re.run (Re.Star set) (run +:+ rest) cs k = Some x.
Proof. intros. now apply star_k_run_first. Qed.

Lemma run_plus set c run rest cs k x :
  Re.mem set c = true ->
  all_in (Re.mem set) run = true -> stops (Re.mem set) rest ->
  k rest cs = Some x ->
  Re.run (Re.Plus set) (String c (run +:+ rest)) cs k = Some x.
Proof. intros Hc **. cbn. rewrite Hc. now apply star_k_run_first. Qed.

Lemma run_alt_left r1 r2 s cs k x :
  Re.run r1 s cs k = Some x -> Re.run (Re.Alt r1 r2) s cs k = Some x.
Proof. intros H. cbn. now rewrite H. Qed.

Lemma run_alt_right r1 r2 s cs k x :
  Re.run r1 s cs k = None -> Re.run r2 s cs k = Some x ->
  Re.run (Re.Alt r1 r2) s cs k = Some x.
Proof. intros H1 H2. cbn. now rewrite H1. Qed.

End Forwards.

Lemma all_in_space s : all_in Py.is_space s = all_space s.
Proof. induction s as [|c s IH]; cbn; [reflexivity | now rewrite IH]. Qed.

Lemma space_not_word c : Py.is_space c = true -> Py.is_word c = false.
Proof. destruct c as [[] [] [] [] [] [] [] []]; vm_compute; congruence. Qed.

Lemma word_not_space c : Py.is_word c = true -> Py.is_space c = false.
Proof. destruct c as [[] [] [] [] [] [] [] []]; vm_compute; congruence. Qed.

Lemma word_not_quote c : Py.is_word c = true -> not_quote c = true.
Proof. destruct c as [[] [] [] [] [] [] [] []]; vm_compute; congruence. Qed.

Lemma word_not_closing_brace c :
  Py.is_word c = true -> not_closing_brace c = true.
Proof. destruct c as [[] [] [] [] [] [] [] []]; vm_compute; congruence. Qed.

Lemma word_not_opening_brace c :
  Py.is_word c = true -> Ascii.eqb c "{" = false.
Proof. destruct c as [[] [] [] [] [] [] [] []]; vm_compute; congruence. Qed.

Lemma all_in_impl (p q : ascii -> bool) s :
  (forall c, p c = true -> q c = true) ->
  all_in p s = true -> all_in q s = true.
Proof.
  intros Hpq. induction s as [|c s IH]; cbn; [reflexivity|].
  intros H. apply andb_prop in H as [Hc H]. now rewrite (Hpq c Hc), IH.
Qed.

Lemma stops_word_padding ws t :
  all_space ws = true -> stops Py.is_word (ws +:+ String "=" t).
Proof.
  destruct ws as [|c ws]; cbn; [reflexivity|].
  intros H. apply andb_prop in H as [Hc _]. now apply space_not_word.
Qed.

(** ** One field in its three forms *)

Ltac pad_star :=
  apply run_seq, run_star;
  [ match goal with
    | H : all_space ?ws = true |- all_in _ ?ws = true =>
        change (all_in Py.is_space ws = true); now rewrite all_in_space
    end
  | reflexivity
  | cbn beta ].

Ltac finish_match :=
  cbn beta; rewrite ?plus_consumed, ?consumed_app;
  cbn [String.length Nat.eqb andb]; rewrite ?andb_false_r;
  now rewrite Nat.sub_0_r.

Section OneField.

Variables key ws1 ws2 val : string.
Hypothesis key_nonempty : key <> EmptyString.
Hypothesis key_word : all_in Py.is_word key = true.
Hypothesis ws1_space : all_space ws1 = true.
Hypothesis ws2_space : all_space ws2 = true.

Lemma match_quoted_field adv :
  all_in not_quote val = true ->
  Re.match_at default_pattern (quoted_field key ws1 ws2 val) adv
  = Some (String.length (quoted_field key ws1 ws2 val), [(2, val); (1, key)]).
Proof.
  intros Hval. destruct key as [|c key']; [congruence|].
  cbn [all_in] in key_word. apply andb_prop in key_word as [Hc Hkey].
  unfold Re.match_at, default_pattern, quoted_field. cbn [String.append].
  apply run_seq, run_group, run_plus;
    [exact Hc | exact Hkey | now apply stops_word_padding | cbn beta].
  pad_star. apply run_seq, run_chr; [reflexivity|]. pad_star.
  apply run_alt_left, run_seq, run_chr; [reflexivity|].
  apply run_seq, run_group, run_star; [exact Hval | reflexivity | cbn beta].
  apply run_chr; [reflexivity|]. finish_match.
Qed.

Lemma match_braced_field adv :
  all_in not_closing_brace val = true ->
  Re.match_at default_pattern (braced_field key ws1 ws2 val) adv
  = Some (String.length (braced_field key ws1 ws2 val), [(3, val); (1, key)]).
Proof.
  intros Hval. destruct key as [|c key']; [congruence|].
  cbn [all_in] in key_word. apply andb_prop in key_word as [Hc Hkey].
  unfold Re.match_at, default_pattern, braced_field. cbn [String.append].
  apply run_seq, run_group, run_plus;
    [exact Hc | exact Hkey | now apply stops_word_padding | cbn beta].
  pad_star. apply run_seq, run_chr; [reflexivity|]. pad_star.
  apply run_alt_right; [reflexivity|].
  apply run_alt_left, run_seq, run_chr; [reflexivity|].
  apply run_seq, run_group, run_star; [exact Hval | reflexivity | cbn beta].
  apply run_chr; [reflexivity|]. finish_match.
Qed.

Lemma match_bare_field adv :
  val <> EmptyString -> all_in Py.is_word val = true ->
  Re.match_at default_pattern (bare_field key ws1 ws2 val) adv
  = Some (String.length (bare_field key ws1 ws2 val), [(4, val); (1, key)]).
Proof.
  intros Hne Hval. destruct key as [|c key']; [congruence|].
  cbn [all_in] in key_word. apply andb_prop in key_word as [Hc Hkey].
  destruct val as [|v val']; [congruence|].
  cbn [all_in] in Hval. apply andb_prop in Hval as [Hv Hval].
  unfold Re.match_at, default_pattern, bare_field. cbn [String.append].
  apply run_seq, run_group, run_plus;
    [exact Hc | exact Hkey | now apply stops_word_padding | cbn beta].
  pad_star. apply run_seq, run_chr; [reflexivity|].
  apply run_seq, run_star;
    [change (all_in Py.is_space ws2 = true); now rewrite all_in_space
    |now apply word_not_space | cbn beta].
  apply run_alt_right.
  { apply run_chr_fails. cbn [Re.mem].
    apply word_not_quote in Hv. unfold not_quote in Hv.
    now apply negb_true_iff in Hv. }
  apply run_alt_right.
  { apply run_chr_fails. cbn [Re.mem]. now apply word_not_opening_brace. }
  apply run_group, run_plus; [exact Hv | exact Hval | exact I |].
  finish_match.
Qed.

End OneField.

Lemma findall_single r d cs :
  d <> EmptyString ->
  Re.ngroups r = 4 ->
  Re.match_at r d false = Some (String.length d, cs) ->
  Re.match_at r EmptyString false = None ->
  Re.findall r d = [map (Re.group_or_empty cs) [1; 2; 3; 4]].
Proof.
  intros Hd Hr Hm Hend. unfold Re.findall.
  replace (Re.scan r d 0 EmptyString)
    with (Re.scan r (d +:+ EmptyString) 0 EmptyString)
    by now rewrite str_app_nil_r.
  rewrite (scan_hit r d EmptyString cs) by (rewrite ?str_app_nil_r; assumption).
  rewrite scan_end by assumption.
  cbn [Re.findall_of]. unfold Re.findall_item. now rewrite Hr.
Qed.

Lemma parse_single_field text key val cs :
  text <> EmptyString -> key <> EmptyString -> val <> EmptyString ->
  Re.match_at default_pattern text false = Some (String.length text, cs) ->
  filter (fun x => nonempty x = true)
    (map (Re.group_or_empty cs) [1; 2; 3; 4]) = [key; val] ->
  _parse_metadata text (Some default_pattern)
  = Ok (Some [(Py.lower key, VStr val)]).
Proof.
  intros Ht Hk Hv Hm Hf. unfold _parse_metadata.
  rewrite (findall_single default_pattern text cs Ht eq_refl Hm eq_refl).
  cbn [map] in *. now rewrite Hf.
Qed.

Lemma field_nonempty key rest : key <> EmptyString -> key +:+ rest <> EmptyString.
Proof. destruct key; cbn; [congruence | discriminate]. Qed.

(** X9. A field written [key = Q value Q] (Q the double quote),
    [key = {value}] or [key = value], with any whitespace around the
    equals sign, parses to the one-item record that maps the lowercased
    key to the value verbatim: in the quoted form for any non-empty
    value free of double quotes, in the braced form for any free of
    closing braces, in the bare form for any made of word characters.
    For a bare word the three forms therefore give the same record. *)
Theorem value_forms_agree (key ws1 ws2 val : string) :
  key <> EmptyString -> all_in Py.is_word key = true ->
  all_space ws1 = true -> all_space ws2 = true ->
  val <> EmptyString ->
  (all_in not_quote val = true ->
   _parse_metadata (quoted_field key ws1 ws2 val) (Some default_pattern)
   = Ok (Some [(Py.lower key, VStr val)])) /\
  (all_in not_closing_brace val = true ->
   _parse_metadata (braced_field key ws1 ws2 val) (Some default_pattern)
   = Ok (Some [(Py.lower key, VStr val)])) /\
  (all_in Py.is_word val = true ->
   _parse_metadata (bare_field key ws1 ws2 val) (Some default_pattern)
   = Ok (Some [(Py.lower key, VStr val)]) /\
   _parse_metadata (quoted_field key ws1 ws2 val) (Some default_pattern)
   = _parse_metadata (bare_field key ws1 ws2 val) (Some default_pattern) /\
   _parse_metadata (braced_field key ws1 ws2 val) (Some default_pattern)
   = _parse_metadata (bare_field key ws1 ws2 val) (Some default_pattern)).
Proof.
  intros Hk Hkw H1 H2 Hv.
  assert (Hfilter : forall n,
             filter (fun x => nonempty x = true)
               (map (Re.group_or_empty [(n, val); (1, key)]) [1; 2; 3; 4])
             = [key; val] \/ ~ (2 <= n <= 4)).
  { intros n. destruct key; [congruence|]. destruct val; [congruence|].
    destruct n as [|[|[|[|[|n]]]]]; try (right; lia); left; reflexivity. }
  assert (Hq : all_in not_quote val = true ->
               _parse_metadata (quoted_field key ws1 ws2 val) (Some default_pattern)
               = Ok (Some [(Py.lower key, VStr val)])).
  { intros Hval.
    apply (parse_single_field _ key val [(2, val); (1, key)]); auto.
    - now apply field_nonempty.
    - now apply match_quoted_field.
    - destruct (Hfilter 2) as [H|H]; [exact H | lia]. }
  assert (Hb : all_in not_closing_brace val = true ->
               _parse_metadata (braced_field key ws1 ws2 val) (Some default_pattern)
               = Ok (Some [(Py.lower key, VStr val)])).
  { intros Hval.
    apply (parse_single_field _ key val [(3, val); (1, key)]); auto.
    - now apply field_nonempty.
    - now apply match_braced_field.
    - destruct (Hfilter 3) as [H|H]; [exact H | lia]. }
  split; [exact Hq|]. split; [exact Hb|]. intros Hval.
  assert (Hw : _parse_metadata (bare_field key ws1 ws2 val) (Some default_pattern)
               = Ok (Some [(Py.lower key, VStr val)])).
  { apply (parse_single_field _ key val [(4, val); (1, key)]); auto.
    - now apply field_nonempty.
    - now apply match_bare_field.
    - destruct (Hfilter 4) as [H|H]; [exact H | lia]. }
  split; [exact Hw|]. rewrite Hw. split.
  - apply Hq. eapply all_in_impl; [apply word_not_quote | exact Hval].
  - apply Hb. eapply all_in_impl; [apply word_not_closing_brace | exact Hval].
Qed.

Lemma value_forms_agree_witness :
  (all_in not_quote "2020" = true ->
   _parse_metadata (quoted_field "Year" " " " " "2020") (Some default_pattern)
   = Ok (Some [(Py.lower "Year", VStr "2020")])) /\
  (all_in not_closing_brace "2020" = true ->
   _parse_metadata (braced_field "Year" " " " " "2020") (Some default_pattern)
   = Ok (Some [(Py.lower "Year", VStr "2020")])) /\
  (all_in Py.is_word "2020" = true ->
   _parse_metadata (bare_field "Year" " " " " "2020") (Some default_pattern)
   = Ok (Some [(Py.lower "Year", VStr "2020")]) /\
   _parse_metadata (quoted_field "Year" " " " " "2020") (Some default_pattern)
   = _parse_metadata (bare_field "Year" " " " " "2020") (Some default_pattern) /\
   _parse_metadata (braced_field "Year" " " " " "2020") (Some default_pattern)
   = _parse_metadata (bare_field "Year" " " " " "2020") (Some default_pattern)).
Proof.
  apply (value_forms_agree "Year" " " " " "2020");
    first [discriminate | reflexivity].
Defined.

(** ** More on DOI enrichment *)

Lemma dict_set_same k v d : dict_get k d = Some v -> dict_set k v d = d.
Proof.
  induction d as [|[k0 v0] d IH]; cbn [dict_get dict_set]; [discriminate|].
  destruct (k =? k0)%string; [now intros [= ->] | intros H; now rewrite IH].
Qed.

Lemma with_urls_doi w d : dict_get "doi" (with_urls w d) = dict_get "doi" d.
Proof.
  unfold with_urls. destruct (dict_get "doi" d) eqn:E; [|exact E].
  now rewrite !dict_get_set.
Qed.

Lemma with_urls_idem w d : with_urls w (with_urls w d) = with_urls w d.
Proof.
  unfold with_urls at 1. rewrite with_urls_doi.
  unfold with_urls. destruct (dict_get "doi" d) as [doi|]; [|reflexivity].
  set (url := _get_url_from_doi w doi).
  set (D := dict_set "url" url (dict_set "doi_url" url d)).
  rewrite (dict_set_same "doi_url" url D) by (unfold D; now rewrite !dict_get_set).
  apply dict_set_same. unfold D. now rewrite dict_get_set.
Qed.

Lemma with_urls_NoDup w d : NoDup (map fst d) -> NoDup (map fst (with_urls w d)).
Proof.
  intros H. unfold with_urls. destruct (dict_get "doi" d); [|assumption].
  now do 2 apply dict_set_NoDup.
Qed.

Lemma urls_added_is_dict w e : is_dict e -> is_dict (urls_added w e).
Proof. destruct e; cbn; [discriminate | auto]. Qed.

(** X10. Running [add_urls_from_doi] a second time, with the lookups
    answering as before, changes nothing. *)
Theorem add_urls_from_doi_idempotent (w : world) (self self' : bibtexParser) :
  Forall is_dict (parsed_entries self) ->
  add_urls_from_doi w self = Returns tt self' ->
  add_urls_from_doi w self' = Returns tt self'.
Proof.
  intros Hd Hrun. rewrite (add_urls_from_doi_dicts w self Hd) in Hrun.
  injection Hrun as <-. rewrite add_urls_from_doi_dicts.
  - cbn [parsed_entries set_parsed_entries]. rewrite set_parsed_entries_twice.
    f_equal. f_equal. rewrite map_map. apply map_ext.
    intros [d|]; cbn; [now rewrite with_urls_idem | reflexivity].
  - cbn [parsed_entries set_parsed_entries]. apply Forall_map.
    eapply Forall_impl; [exact Hd|]. intros e. apply urls_added_is_dict.
Qed.

Lemma add_urls_from_doi_idempotent_witness :
  add_urls_from_doi (offline "a.bib" EmptyString)
    (set_parsed_entries (init "a.bib")
       [Some [("doi", VStr "10.1/x"); ("doi_url", VNone); ("url", VNone)]])
  = Returns tt
      (set_parsed_entries (init "a.bib")
         [Some [("doi", VStr "10.1/x"); ("doi_url", VNone); ("url", VNone)]]).
Proof.
  apply (add_urls_from_doi_idempotent (offline "a.bib" EmptyString)
           (set_parsed_entries (init "a.bib") [Some [("doi", VStr "10.1/x")]])).
  - repeat constructor; discriminate.
  - reflexivity.
Defined.

(** X11. When the lookup for the DOI of entry [i] completes with the
    address [u], the record of entry [i] gets [u] under both [doi_url]
    and [url] (a [url] field the entry had is written over) and keeps
    its other keys, unique as before; a dict without a [doi] key is
    left exactly as it was; nothing else of the parser changes. *)
Theorem doi_resolved
        (w : world) (self : bibtexParser) (i : nat) (d : pydict)
        (doi u : string) :
  Forall is_dict (parsed_entries self) ->
  parsed_entries self !! i = Some (Some d) ->
  dict_get "doi" d = Some (VStr doi) ->
  head w (doi_url doi) = Redirected u ->
  exists self' d',
    add_urls_from_doi w self = Returns tt self' /\
    parsed_entries self' !! i = Some (Some d') /\
    dict_get "doi_url" d' = Some (VStr u) /\
    dict_get "url" d' = Some (VStr u) /\
    (forall k, k <> "doi_url" -> k <> "url" -> dict_get k d' = dict_get k d) /\
    (NoDup (map fst d) -> NoDup (map fst d')) /\
    (forall j dj,
        parsed_entries self !! j = Some (Some dj) ->
        dict_get "doi" dj = None ->
        parsed_entries self' !! j = Some (Some dj)) /\
    length (parsed_entries self') = length (parsed_entries self) /\
    file_path self' = file_path self /\
    bibtex_string self' = bibtex_string self /\
    metadata_entries self' = metadata_entries self.
Proof.
  intros Hd Hi Hdoi Hok.
  assert (Hw : with_urls w d
               = dict_set "url" (VStr u) (dict_set "doi_url" (VStr u) d)).
  { unfold with_urls, _get_url_from_doi. rewrite Hdoi.
    fold (doi_url doi). now rewrite Hok. }
  exists (set_parsed_entries self (map (urls_added w) (parsed_entries self))),
         (with_urls w d).
  split; [now apply add_urls_from_doi_dicts|].
  cbn [parsed_entries set_parsed_entries file_path bibtex_string metadata_entries].
  split.
  { rewrite list_lookup_map. unfold entry in *. now rewrite Hi. }
  split; [now rewrite Hw, !dict_get_set|].
  split; [now rewrite Hw, !dict_get_set|].
  split.
  { intros k Hk1 Hk2. rewrite Hw, !dict_get_set.
    destruct (String.eqb_spec k "url"); [congruence|].
    destruct (String.eqb_spec k "doi_url"); [congruence | reflexivity]. }
  split; [apply with_urls_NoDup|].
  split.
  { intros j dj Hj Hnone. rewrite list_lookup_map. unfold entry in *.
    rewrite Hj. cbn. unfold with_urls. now rewrite Hnone. }
  split; [apply length_map|]. auto.
Qed.

Lemma doi_resolved_witness :
  exists self' d',
    add_urls_from_doi
      {| fs := one_file "a.bib" EmptyString;
         head := fun _ => Redirected "https://example.org/final" |}
      (set_parsed_entries (init "a.bib")
         [Some [("url", VStr "http://old"); ("doi", VStr "10.1/test")];
          Some [("title", VStr "T")]])
    = Returns tt self' /\
    parsed_entries self' !! 0 = Some (Some d') /\
    dict_get "doi_url" d' = Some (VStr "https://example.org/final") /\
    dict_get "url" d' = Some (VStr "https://example.org/final") /\
    (forall k, k <> "doi_url" -> k <> "url" ->
               dict_get k d'
               = dict_get k [("url", VStr "http://old"); ("doi", VStr "10.1/test")]) /\
    (NoDup (map fst [("url", VStr "http://old"); ("doi", VStr "10.1/test")]) ->
     NoDup (map fst d')) /\
    (forall j dj,
        [Some [("url", VStr "http://old"); ("doi", VStr "10.1/test")];
         Some [("title", VStr "T")]] !! j = Some (Some dj) ->
        dict_get "doi" dj = None ->
        parsed_entries self' !! j = Some (Some dj)) /\
    length (parsed_entries self') = 2 /\
    file_path self' = "a.bib" /\
    bibtex_string self' = None /\
    metadata_entries self' = [].
Proof.
  apply (doi_resolved
           {| fs := one_file "a.bib" EmptyString;
              head := fun _ => Redirected "https://example.org/final" |}
           (set_parsed_entries (init "a.bib")
              [Some [("url", VStr "http://old"); ("doi", VStr "10.1/test")];
               Some [("title", VStr "T")]])
           0 [("url", VStr "http://old"); ("doi", VStr "10.1/test")]
           "10.1/test" "https://example.org/final").
  - repeat constructor; discriminate.
  - reflexivity.
  - reflexivity.
  - reflexivity.
Defined.

Lemma add_urls_loop_prefix w todo : forall done rest self n,
  parsed_entries self = done ++ todo ++ rest ->
  Forall is_dict todo ->
  add_urls_loop w (length todo + n) (length done) self
  = add_urls_loop w n (length done + length todo)
      (set_parsed_entries self (done ++ map (urls_added w) todo ++ rest)).
Proof.
  induction todo as [|e todo IH]; intros done rest self n Hl Hd.
  - cbn [length map app Nat.add]. rewrite Nat.add_0_r.
    cbn [app] in Hl. now rewrite <- Hl, set_parsed_entries_same.
  - apply Forall_cons in Hd as [He Hd]. cbn [length Nat.add add_urls_loop].
    rewrite Hl. cbn [app]. rewrite list_lookup_middle by reflexivity.
    destruct e as [d|]; [|now contradiction He]. cbn [add_url_step bind].
    rewrite Hl. cbn [app].
    rewrite insert_app_r_alt by apply Nat.le_refl.
    rewrite Nat.sub_diag. cbn [insert list_insert].
    replace (S (length done))
      with (length (done ++ [Some (with_urls w d)]))
      by (rewrite length_app; cbn; lia).
    rewrite (IH (done ++ [Some (with_urls w d)]) rest);
      [|now rewrite <- app_assoc | assumption].
    rewrite set_parsed_entries_twice, <- app_assoc, !length_app.
    cbn [length map app urls_added option_map].
    replace (length done + 1 + length todo) with (length done + S (length todo))
      by lia.
    reflexivity.
Qed.

Lemma add_urls_from_doi_none w self done rest :
  parsed_entries self = done ++ None :: rest ->
  Forall is_dict done ->
  add_urls_from_doi w self
  = Raises TypeError
      (set_parsed_entries self (map (urls_added w) done ++ None :: rest)).
Proof.
  intros Hl Hd. unfold add_urls_from_doi.
  rewrite Hl at 1. rewrite length_app. cbn [length].
  pose proof (add_urls_loop_prefix w done [] (None :: rest) self
                (S (length rest)) Hl Hd) as H.
  cbn [length app Nat.add] in H. unfold entry in *. rewrite H.
  cbn [add_urls_loop parsed_entries set_parsed_entries].
  rewrite list_lookup_middle by now rewrite length_map.
  reflexivity.
Qed.

(** X12. An entry that is [None] stops [add_urls_from_doi] with
    [TypeError]; the entries before it have been rewritten by then, the
    entry itself and those after it have not. *)
Theorem add_urls_from_doi_stops_at_none
        (w : world) (self : bibtexParser) (done rest : list entry) :
  parsed_entries self = done ++ None :: rest ->
  Forall is_dict done ->
  exists self',
    add_urls_from_doi w self = Raises TypeError self' /\
    parsed_entries self' = map (urls_added w) done ++ None :: rest /\
    length (parsed_entries self') = length (parsed_entries self).
Proof.
  intros Hl Hd. rewrite (add_urls_from_doi_none w self done rest Hl Hd).
  eexists. split; [reflexivity|].
  cbn [parsed_entries set_parsed_entries]. split; [reflexivity|].
  rewrite Hl, !length_app, length_map. reflexivity.
Qed.

Lemma add_urls_from_doi_stops_at_none_witness :
  exists self',
    add_urls_from_doi
      {| fs := one_file "a.bib" EmptyString;
         head := fun _ => Redirected "https://example.org/final" |}
      (set_parsed_entries (init "a.bib")
         ([Some [("doi", VStr "10.1/a")]]
            ++ None :: [Some [("doi", VStr "10.1/b")]]))
    = Raises TypeError self' /\
    parsed_entries self'
    = map (urls_added
             {| fs := one_file "a.bib" EmptyString;
                head := fun _ => Redirected "https://example.org/final" |})
        [Some [("doi", VStr "10.1/a")]]
        ++ None :: [Some [("doi", VStr "10.1/b")]] /\
    length (parsed_entries self') = 3.
Proof.
  apply (add_urls_from_doi_stops_at_none
           {| fs := one_file "a.bib" EmptyString;
              head := fun _ => Redirected "https://example.org/final" |}
           (set_parsed_entries (init "a.bib")
              ([Some [("doi", VStr "10.1/a")]]
                 ++ None :: [Some [("doi", VStr "10.1/b")]]))
           [Some [("doi", VStr "10.1/a")]] [Some [("doi", VStr "10.1/b")]]).
  - reflexivity.
  - repeat constructor; discriminate.
Defined.

(** ** A pattern that does not compile *)

Lemma parse_loop_invalid todo : forall self,
  parse_loop None todo self
  = Returns tt
      (set_parsed_entries self
         (parsed_entries self ++ map (fun _ => None) todo)).
Proof.
  induction todo as [|m todo IH]; intros self.
  - cbn. now rewrite app_nil_r, set_parsed_entries_same.
  - cbn [parse_loop _parse_metadata map]. rewrite IH.
    cbn [parsed_entries set_parsed_entries].
    now rewrite set_parsed_entries_twice, <- app_assoc.
Qed.

(** X13. With a pattern that [re] cannot compile, [parse_metadata]
    still returns normally and stores [None] for every chunk; if there
    is a chunk, [add_urls_from_doi] then raises [TypeError] at the
    first of these, after rewriting the dicts that were there
    before. *)
Theorem invalid_pattern_stores_none (w : world) (self : bibtexParser) :
  parse_metadata PatInvalid self
  = Returns tt
      (set_parsed_entries self
         (parsed_entries self
            ++ map (fun _ => None) (metadata_entries self))) /\
  (Forall is_dict (parsed_entries self) ->
   metadata_entries self <> [] ->
   add_urls_from_doi w
     (set_parsed_entries self
        (parsed_entries self ++ map (fun _ => None) (metadata_entries self)))
   = Raises TypeError
       (set_parsed_entries self
          (map (urls_added w) (parsed_entries self)
             ++ map (fun _ => None) (metadata_entries self)))).
Proof.
  split; [apply parse_loop_invalid|].
  intros Hd Hne. destruct (metadata_entries self) as [|m ms] eqn:E; [congruence|].
  cbn [map].
  rewrite (add_urls_from_doi_none w _ (parsed_entries self)
             (map (fun _ => None) ms)) by (try assumption; reflexivity).
  now rewrite set_parsed_entries_twice.
Qed.

Lemma invalid_pattern_stores_none_witness :
  add_urls_from_doi (offline "a.bib" EmptyString)
    (set_parsed_entries
       (set_metadata_entries (init "a.bib") ["b1, title={X}}"])
       ([] ++ map (fun _ => None) ["b1, title={X}}"]))
  = Raises TypeError
      (set_parsed_entries
         (set_metadata_entries (init "a.bib") ["b1, title={X}}"])
         (map (urls_added (offline "a.bib" EmptyString)) []
            ++ map (fun _ => None) ["b1, title={X}}"])).
Proof.
  apply (proj2 (invalid_pattern_stores_none (offline "a.bib" EmptyString)
                  (set_metadata_entries (init "a.bib") ["b1, title={X}}"]))).
  - constructor.
  - discriminate.
Defined.

(** ** The field parser under the default pattern, in full *)

Lemma all_fields_Some items fields :
  all_fields items = Some fields <-> map field_of items = map Some fields.
Proof.
  revert fields. induction items as [|item items IH]; intros fields; cbn.
  - split; [intros [= <-]; reflexivity | now destruct fields].
  - destruct (field_of item) as [f|] eqn:E.
    + destruct (all_fields items) as [fs|] eqn:E'.
      * split.
        -- intros [= <-]. cbn. f_equal. now apply IH.
        -- destruct fields as [|f' fs']; [discriminate|].
           intros [= -> H]. apply IH in H. congruence.
      * split; [discriminate|].
        destruct fields as [|f' fs']; [discriminate|].
        intros [= _ H]. apply IH in H. discriminate.
    + split; [discriminate|]. destruct fields; discriminate.
Qed.

Lemma all_fields_None items :
  all_fields items = None -> Exists (fun item => field_of item = None) items.
Proof.
  induction items as [|item items IH]; cbn; [discriminate|].
  destruct (field_of item) eqn:E; [|now constructor].
  destruct (all_fields items); [discriminate|]. intros _. now apply Exists_cons_tl, IH.
Qed.

Lemma parse_metadata_default metadata :
  _parse_metadata metadata (Some default_pattern)
  = match chunk_fields metadata with
    | Some fields => Ok (Some (dict_of_fields fields []))
    | None => Err ValueError
    end.
Proof.
  unfold chunk_fields. destruct (all_fields _) as [fields|] eqn:E.
  - apply parse_metadata_fields. now apply all_fields_Some.
  - apply parse_metadata_raises. now apply all_fields_None.
Qed.

Lemma parse_loop_default_ok todo : forall self,
  Forall (fun m => chunk_fields m <> None) todo ->
  parse_loop (Some default_pattern) todo self
  = Returns tt
      (set_parsed_entries self (parsed_entries self ++ map parsed_record todo)).
Proof.
  induction todo as [|m todo IH]; intros self H.
  - cbn. now rewrite app_nil_r, set_parsed_entries_same.
  - apply Forall_cons in H as [Hm H]. cbn [parse_loop map].
    rewrite parse_metadata_default. unfold parsed_record at 1.
    destruct (chunk_fields m) as [fields|]; [|congruence].
    rewrite (IH _ H). cbn [parsed_entries set_parsed_entries].
    now rewrite set_parsed_entries_twice, <- app_assoc.
Qed.

Lemma parse_loop_default_bad before bad after : forall self,
  Forall (fun m => chunk_fields m <> None) before ->
  chunk_fields bad = None ->
  parse_loop (Some default_pattern) (before ++ bad :: after) self
  = Raises ValueError
      (set_parsed_entries self (parsed_entries self ++ map parsed_record before)).
Proof.
  induction before as [|m before IH]; intros self H Hbad.
  - cbn [app parse_loop map]. rewrite parse_metadata_default, Hbad.
    now rewrite app_nil_r, set_parsed_entries_same.
  - apply Forall_cons in H as [Hm H]. cbn [app parse_loop map].
    rewrite parse_metadata_default. unfold parsed_record at 1.
    destruct (chunk_fields m) as [fields|]; [|congruence].
    rewrite (IH _ H Hbad). cbn [parsed_entries set_parsed_entries].
    now rewrite set_parsed_entries_twice, <- app_assoc.
Qed.

Lemma first_bad_chunk (todo : list string) :
  Forall (fun m => chunk_fields m <> None) todo \/
  exists before bad after,
    todo = before ++ bad :: after /\
    Forall (fun m => chunk_fields m <> None) before /\
    chunk_fields bad = None.
Proof.
  induction todo as [|m todo IH]; [left; constructor|].
  destruct (chunk_fields m) eqn:E.
  - destruct IH as [H|(before & bad & after & -> & H & Hbad)].
    + left. constructor; [congruence | assumption].
    + right. exists (m :: before), bad, after.
      split; [reflexivity|]. split; [|assumption].
      constructor; [congruence | assumption].
  - right. exists [], m, todo. split; [reflexivity|]. split; [constructor | assumption].
Qed.

Lemma parsed_record_is_dict m : is_dict (parsed_record m).
Proof. discriminate. Qed.

Lemma extract_metadata_fresh path text :
  extract_metadata (set_bibtex_string (init path) text)
  = Returns tt
      (set_metadata_entries (set_bibtex_string (init path) text)
         (chunks_of text)).
Proof.
  now rewrite (extract_metadata_segments
                 (set_bibtex_string (init path) text) text eq_refl).
Qed.

Lemma read_bibtex_file_readable w path text self :
  file_path self = path -> readable w path text ->
  read_bibtex_file w self = Returns tt (set_bibtex_string self text).
Proof.
  intros Hp [[stem Hs] Hfs]. unfold read_bibtex_file.
  rewrite Hp, Hs, endswith_app, <- Hs, Hfs. reflexivity.
Qed.

Lemma read_bibtex_file_not_readable w self :
  (forall text, ~ readable w (file_path self) text) ->
  read_bibtex_file w self = Returns tt self.
Proof.
  intros H. unfold read_bibtex_file.
  destruct (Py.endswith (file_path self) ".bib") eqn:E; [|reflexivity].
  cbn [negb]. destruct (fs w (file_path self)) as [| |text] eqn:F;
    try reflexivity.
  exfalso. apply (H text). split; [now apply endswith_spec | assumption].
Qed.

Lemma readable_dec w path :
  (exists text, readable w path text) \/ (forall text, ~ readable w path text).
Proof.
  destruct (Py.endswith path ".bib") eqn:E.
  - destruct (fs w path) as [| |text] eqn:F.
    + right. intros text [_ H]. congruence.
    + right. intros text [_ H]. congruence.
    + left. exists text. split; [now apply endswith_spec | assumption].
  - right. intros text [[stem ->] _]. now rewrite endswith_app in E.
Qed.

(** The pipeline on a fresh parser, case by case. *)
Lemma stages_fresh w path :
  ((forall text, ~ readable w path text) /\
   stages w (init path) = Raises AttributeError (init path)) \/
  (exists text,
      readable w path text /\
      Forall (fun m => chunk_fields m <> None) (chunks_of text) /\
      stages w (init path) = Returns tt (parsed_state w path text)) \/
  (exists text before bad after,
      readable w path text /\
      chunks_of text = before ++ bad :: after /\
      Forall (fun m => chunk_fields m <> None) before /\
      chunk_fields bad = None /\
      stages w (init path)
      = Raises ValueError
          {| file_path := path;
             bibtex_string := Some text;
             metadata_entries := chunks_of text;
             parsed_entries := map parsed_record before |}).
Proof.
  destruct (readable_dec w path) as [[text Hr]|Hn].
  - right. unfold stages.
    rewrite (read_bibtex_file_readable w path text (init path) eq_refl Hr).
    cbn [bind]. rewrite extract_metadata_fresh. cbn [bind].
    unfold parse_metadata. cbn [compiled metadata_entries set_metadata_entries].
    destruct (first_bad_chunk (chunks_of text))
      as [Hall|(before & bad & after & E & Hbefore & Hbad)].
    + left. exists text. split; [assumption|]. split; [assumption|].
      rewrite (parse_loop_default_ok _ _ Hall). cbn [bind].
      rewrite add_urls_from_doi_dicts.
      * reflexivity.
      * cbn. apply Forall_map, Forall_forall. intros m _.
        apply parsed_record_is_dict.
    + right. exists text, before, bad, after.
      repeat (split; [assumption|]).
      rewrite E at 1. rewrite (parse_loop_default_bad _ _ _ _ Hbefore Hbad).
      reflexivity.
  - left. split; [assumption|]. unfold stages.
    now rewrite (read_bibtex_file_not_readable w (init path) Hn).
Qed.

Lemma readable_functional w path t1 t2 :
  readable w path t1 -> readable w path t2 -> t1 = t2.
Proof. intros [_ H1] [_ H2]. congruence. Qed.

Lemma stages_valued w path text :
  readable w path text ->
  Forall (fun m => chunk_fields m <> None) (chunks_of text) ->
  stages w (init path) = Returns tt (parsed_state w path text).
Proof.
  intros Hr Hall.
  destruct (stages_fresh w path)
    as [[Hn _]|[(t & Hr' & _ & H)|(t & before & bad & after & Hr' & E & _ & Hbad & _)]].
  - now destruct (Hn text).
  - now rewrite (readable_functional w path text t Hr Hr').
  - rewrite <- (readable_functional w path text t Hr Hr') in E.
    rewrite E in Hall. apply Forall_app in Hall as [_ Hall].
    apply Forall_cons in Hall as [Hall _]. congruence.
Qed.

(** X14. What [parse_bibtex] does on a fresh parser, in full.  It
    hands back the list of records, one dict per chunk, unless the file
    cannot be read (then it returns [None] and the parser stays as
    [__init__] made it) or some chunk has a field with an empty value
    (then it returns [None]; the chunks are all stored, but only the
    chunks before the first such one have a record, and no record has
    had its DOI looked up).  No other failure occurs. *)
Theorem parse_bibtex_outcomes (w : world) (path : string) :
  ((forall text, ~ readable w path text) /\
   parse_bibtex w false (init path) = Returns RetNone (init path)) \/
  (exists text,
      readable w path text /\
      Forall (fun m => chunk_fields m <> None) (chunks_of text) /\
      parse_bibtex w false (init path)
      = Returns RetParsedEntries (parsed_state w path text) /\
      Forall is_dict (parsed_entries (parsed_state w path text)) /\
      length (parsed_entries (parsed_state w path text))
      = length (metadata_entries (parsed_state w path text))) \/
  (exists text before bad after,
      readable w path text /\
      chunks_of text = before ++ bad :: after /\
      Forall (fun m => chunk_fields m <> None) before /\
      Exists (fun item => field_of item = None)
        (Re.findall default_pattern bad) /\
      parse_bibtex w false (init path)
      = Returns RetNone
          {| file_path := path;
             bibtex_string := Some text;
             metadata_entries := chunks_of text;
             parsed_entries := map parsed_record before |}).
Proof.
  rewrite parse_bibtex_stages.
  destruct (stages_fresh w path)
    as [[Hn ->]|[(t & Hr & Hall & ->)|(t & before & bad & after & Hr & E & Hb & Hbad & ->)]].
  - left. auto.
  - right. left. exists t. repeat (split; [assumption || reflexivity|]).
    cbn [parsed_state parsed_entries metadata_entries]. split.
    + apply Forall_map, Forall_map, Forall_forall. intros m _. discriminate.
    + now rewrite !length_map.
  - right. right. exists t, before, bad, after.
    repeat (split; [assumption|]). split; [|reflexivity].
    now apply all_fields_None.
Qed.

Lemma chunks_of_well_formed text es :
  well_formed text es -> chunks_of text = map (fun e => Py.strip (snd e)) es.
Proof.
  intros Hwf. unfold chunks_of. rewrite (strip_well_formed text es Hwf).
  destruct Hwf as (ws & _ & _ & Hes).
  now rewrite (kept_join_trimmed es EmptyString Hes), kept_of_empty.
Qed.

(** X15. End to end: for a readable file whose text is well formed,
    with [N] entries none of which has a field with an empty value,
    [parse_bibtex] hands back exactly [N] records, in source order,
    the record of an entry being the fields of its body with the DOI
    addresses added. *)
Theorem well_formed_file_parses
        (w : world) (path text : string) (es : list source_entry) :
  readable w path text ->
  well_formed text es ->
  Forall (fun e => chunk_fields (Py.strip (snd e)) <> None) es ->
  output (parse_bibtex w false (init path))
  = Some (map (fun e => urls_added w (parsed_record (Py.strip (snd e)))) es) /\
  (forall records,
      output (parse_bibtex w false (init path)) = Some records ->
      length records = length es).
Proof.
  intros Hr Hwf Hval.
  assert (Hchunks := chunks_of_well_formed text es Hwf).
  assert (Hrun : output (parse_bibtex w false (init path))
                 = Some (map (fun e => urls_added w (parsed_record (Py.strip (snd e)))) es)).
  { rewrite parse_bibtex_stages, (stages_valued w path text Hr).
    - cbn [output deref parsed_state parsed_entries]. rewrite Hchunks.
      now rewrite !map_map.
    - rewrite Hchunks. now apply Forall_map. }
  split; [exact Hrun|]. intros records. rewrite Hrun. intros [= <-].
  apply length_map.
Qed.

Lemma well_formed_file_parses_witness :
  output (parse_bibtex (offline "two.bib" "@book{b1, title={X}}@book{b2, title={Y}}")
            false (init "two.bib"))
  = Some (map (fun e =>
                 urls_added (offline "two.bib" "@book{b1, title={X}}@book{b2, title={Y}}")
                   (parsed_record (Py.strip (snd e))))
            [("@book{", "b1, title={X}}"); ("@book{", "b2, title={Y}}")]) /\
  (forall records,
      output (parse_bibtex (offline "two.bib" "@book{b1, title={X}}@book{b2, title={Y}}")
                false (init "two.bib")) = Some records ->
      length records = 2).
Proof.
  apply (well_formed_file_parses
           (offline "two.bib" "@book{b1, title={X}}@book{b2, title={Y}}")
           "two.bib" "@book{b1, title={X}}@book{b2, title={Y}}"
           [("@book{", "b1, title={X}}"); ("@book{", "b2, title={Y}}")]).
  - split; [now exists "two" | reflexivity].
  - exists EmptyString. split; [reflexivity|]. split; [reflexivity|].
    assert (Hd : is_delimiter "@book{").
    { exists "book". split; [reflexivity|]. split; [discriminate | reflexivity]. }
    repeat constructor; try exact Hd;
      try (apply at_free_no_delimiter; reflexivity);
      cbn; discriminate.
  - repeat constructor; vm_compute; discriminate.
Defined.

(** ** Running the pipeline again on the same parser *)

Lemma urls_added_idem w e : urls_added w (urls_added w e) = urls_added w e.
Proof. destruct e as [d|]; cbn; [now rewrite with_urls_idem | reflexivity]. Qed.

Lemma map_urls_added_idem w (l : list entry) :
  map (urls_added w) (map (urls_added w) l) = map (urls_added w) l.
Proof. rewrite map_map. apply map_ext. intros e. apply urls_added_idem. Qed.

Lemma stages_again w path text :
  readable w path text ->
  Forall (fun m => chunk_fields m <> None) (chunks_of text) ->
  stages w (parsed_state w path text)
  = Returns tt
      {| file_path := path;
         bibtex_string := Some text;
         metadata_entries := chunks_of text ++ chunks_of text;
         parsed_entries :=
           parsed_entries (parsed_state w path text)
             ++ parsed_entries (parsed_state w path text)
             ++ parsed_entries (parsed_state w path text) |}.
Proof.
  intros Hr Hall. unfold stages.
  rewrite (read_bibtex_file_readable w path text (parsed_state w path text)
             eq_refl Hr).
  cbn [bind].
  rewrite (extract_metadata_segments
             (set_bibtex_string (parsed_state w path text) text) text eq_refl).
  cbn [bind].
  fold (chunks_of text). unfold parse_metadata.
  cbn [compiled metadata_entries set_metadata_entries set_bibtex_string
       parsed_state].
  rewrite parse_loop_default_ok by (apply Forall_app; now split).
  cbn [bind]. rewrite add_urls_from_doi_dicts.
  - cbn [parsed_entries set_parsed_entries set_metadata_entries
         set_bibtex_string file_path bibtex_string metadata_entries].
    unfold set_parsed_entries. cbn. f_equal.
    rewrite !map_app, map_urls_added_idem. reflexivity.
  - cbn. apply Forall_app. split.
    + apply Forall_map, Forall_map, Forall_forall. intros m _. discriminate.
    + apply Forall_map, Forall_forall. intros m _. discriminate.
Qed.

(** X16. A second [parse_bibtex] on the same parser, the file and the
    lookups unchanged, does not start afresh: when the first run
    completed with chunks [M] and records [P], the second completes
    with chunks [M ++ M] and records [P ++ P ++ P], three times as
    many. *)
Theorem second_run_triples (w : world) (path : string) (self1 : bibtexParser) :
  stages w (init path) = Returns tt self1 ->
  exists self2,
    parse_bibtex w false self1 = Returns RetParsedEntries self2 /\
    metadata_entries self2 = metadata_entries self1 ++ metadata_entries self1 /\
    parsed_entries self2
    = parsed_entries self1 ++ parsed_entries self1 ++ parsed_entries self1 /\
    length (parsed_entries self2) = 3 * length (parsed_entries self1) /\
    length (metadata_entries self1) = length (parsed_entries self1).
Proof.
  intros Hrun.
  destruct (stages_fresh w path)
    as [[_ H]|[(t & Hr & Hall & H)|(t & ? & ? & ? & _ & _ & _ & _ & H)]];
    rewrite H in Hrun; try discriminate Hrun.
  injection Hrun as <-.
  rewrite parse_bibtex_stages, (stages_again w path t Hr Hall).
  eexists. split; [reflexivity|].
  cbn [metadata_entries parsed_entries parsed_state].
  split; [reflexivity|]. split; [reflexivity|].
  rewrite !length_app, !length_map. split; [lia | reflexivity].
Qed.

Lemma second_run_triples_witness :
  exists self2,
    parse_bibtex (offline "a.bib" "@book{b1, title={X}}") false
      (parsed_state (offline "a.bib" "@book{b1, title={X}}") "a.bib"
         "@book{b1, title={X}}")
    = Returns RetParsedEntries self2 /\
    metadata_entries self2 = ["b1, title={X}}"] ++ ["b1, title={X}}"] /\
    parsed_entries self2
    = [Some [("title", VStr "X")]] ++ [Some [("title", VStr "X")]]
        ++ [Some [("title", VStr "X")]] /\
    length (parsed_entries self2) = 3 * 1 /\
    1 = 1.
Proof.
  apply (second_run_triples (offline "a.bib" "@book{b1, title={X}}") "a.bib"
           (parsed_state (offline "a.bib" "@book{b1, title={X}}") "a.bib"
              "@book{b1, title={X}}")).
  reflexivity.
Defined.

(** ** The command line *)

Lemma main_text w writable dir path :
  main w writable dir path false
  = Printed (Json.dumps (parsed_entries (state_of (stages w (init path))))) /\
  main w writable dir path true
  = if writable (path_join dir "parsed_bibtex.json")
    then Wrote (path_join dir "parsed_bibtex.json")
           (Json.dumps (parsed_entries (state_of (stages w (init path)))))
    else CannotOpen (path_join dir "parsed_bibtex.json").
Proof.
  unfold main, save_parsed_entries. rewrite parse_bibtex_stages.
  destruct (stages w (init path)) as [[] s|e s]; cbn; split; reflexivity.
Qed.

(** X17. [main] prints, or with [--save] writes to
    [parsed_bibtex.json] beside the script, the JSON text of the list
    [parse_bibtex] would hand back.  When [parse_bibtex] hands back
    nothing it still prints: the text of the empty list when the file
    cannot be read, and, when a field with an empty value stopped the
    parse, the records of the chunks before it. *)
Theorem main_output
        (w : world) (writable : string -> bool) (dir path : string) :
  (forall records,
      output (parse_bibtex w false (init path)) = Some records ->
      main w writable dir path false = Printed (Json.dumps records) /\
      (writable (path_join dir "parsed_bibtex.json") = true ->
       main w writable dir path true
       = Wrote (path_join dir "parsed_bibtex.json") (Json.dumps records))) /\
  ((forall text, ~ readable w path text) ->
   main w writable dir path false = Printed "[]") /\
  (forall text before bad after,
      readable w path text ->
      chunks_of text = before ++ bad :: after ->
      Forall (fun m => chunk_fields m <> None) before ->
      chunk_fields bad = None ->
      main w writable dir path false
      = Printed (Json.dumps (map parsed_record before))) /\
  (writable (path_join dir "parsed_bibtex.json") = false ->
   main w writable dir path true
   = CannotOpen (path_join dir "parsed_bibtex.json")).
Proof.
  destruct (main_text w writable dir path) as [Hprint Hsave].
  split; [|split; [|split]].
  - intros records. rewrite parse_bibtex_stages.
    destruct (stages w (init path)) as [[] s|e s] eqn:E; [|discriminate].
    cbn [output deref]. intros [= <-]. rewrite Hprint, Hsave. cbn [state_of].
    split; [reflexivity | now intros ->].
  - intros Hn. rewrite Hprint.
    destruct (stages_fresh w path)
      as [[_ ->]|[(t & Hr & _)|(t & ? & ? & ? & Hr & _)]];
      [reflexivity | now destruct (Hn t) ..].
  - intros text before bad after Hr E Hb Hbad. rewrite Hprint.
    destruct (stages_fresh w path)
      as [[Hn _]|[(t & Hr' & Hall & _)|(t & b' & bad' & a' & Hr' & E' & Hb' & Hbad' & ->)]].
    + now destruct (Hn text).
    + rewrite <- (readable_functional w path text t Hr Hr') in Hall.
      rewrite E in Hall. apply Forall_app in Hall as [_ Hall].
      apply Forall_cons in Hall as [Hall _]. congruence.
    + rewrite <- (readable_functional w path text t Hr Hr') in E'.
      cbn [state_of parsed_entries]. do 3 f_equal.
      rewrite E in E'. clear - E' Hb Hbad Hb' Hbad'.
      revert b' E' Hb'. induction before as [|m before IH]; intros b' E' Hb'.
      * destruct b' as [|m' b']; [reflexivity|].
        cbn in E'. injection E' as -> _.
        apply Forall_cons in Hb' as [Hm _]. congruence.
      * apply Forall_cons in Hb as [Hm Hb].
        destruct b' as [|m' b'].
        -- cbn in E'. injection E' as -> _. congruence.
        -- cbn in E'. injection E' as <- E'.
           apply Forall_cons in Hb' as [_ Hb']. f_equal. now apply IH.
  - intros Hw. rewrite Hsave. now rewrite Hw.
Qed.

Lemma main_output_witness :
  main (offline "a.bib" "@book{b1, title={X}}") (fun _ => true) "/opt/tool"
    "a.bib" false
  = Printed (Json.dumps [Some [("title", VStr "X")]]) /\
  ((fun _ : string => true) (path_join "/opt/tool" "parsed_bibtex.json") = true ->
   main (offline "a.bib" "@book{b1, title={X}}") (fun _ => true) "/opt/tool"
     "a.bib" true
   = Wrote (path_join "/opt/tool" "parsed_bibtex.json")
       (Json.dumps [Some [("title", VStr "X")]])).
Proof.
  apply (proj1 (main_output (offline "a.bib" "@book{b1, title={X}}")
                  (fun _ => true) "/opt/tool" "a.bib")).
  reflexivity.
Defined.

(** X18. What [add_urls_from_doi] guarantees when it is given dicts:
    it returns normally; a dict without a [doi] key is untouched; a
    dict with one ends up with [doi_url] and [url] both present and
    equal, holding the resolved address or, when the lookup raised,
    [None]. *)
Theorem add_urls_from_doi_postcondition (w : world) (self : bibtexParser) :
  Forall is_dict (parsed_entries self) ->
  exists self',
    add_urls_from_doi w self = Returns tt self' /\
    length (parsed_entries self') = length (parsed_entries self) /\
    forall i d,
      parsed_entries self !! i = Some (Some d) ->
      exists d',
        parsed_entries self' !! i = Some (Some d') /\
        dict_get "doi" d' = dict_get "doi" d /\
        (dict_get "doi" d = None -> d' = d) /\
        (forall doi,
            dict_get "doi" d = Some doi ->
            dict_get "doi_url" d' = Some (_get_url_from_doi w doi) /\
            dict_get "url" d' = Some (_get_url_from_doi w doi)).
Proof.
  intros Hd. rewrite (add_urls_from_doi_dicts w self Hd).
  eexists. split; [reflexivity|].
  cbn [parsed_entries set_parsed_entries]. split; [apply length_map|].
  intros i d Hi. exists (with_urls w d). split.
  { rewrite list_lookup_map. unfold entry in *. now rewrite Hi. }
  split; [apply with_urls_doi|]. split.
  - intros Hnone. unfold with_urls. now rewrite Hnone.
  - intros doi Hdoi. unfold with_urls. rewrite Hdoi.
    now rewrite !dict_get_set.
Qed.

Lemma add_urls_from_doi_postcondition_witness :
  exists self',
    add_urls_from_doi (offline "a.bib" EmptyString)
      (set_parsed_entries (init "a.bib")
         [Some [("doi", VStr "10.1/x")]; Some [("title", VStr "T")]])
    = Returns tt self' /\
    length (parsed_entries self') = 2 /\
    forall i d,
      [Some [("doi", VStr "10.1/x")]; Some [("title", VStr "T")]] !! i
      = Some (Some d) ->
      exists d',
        parsed_entries self' !! i = Some (Some d') /\
        dict_get "doi" d' = dict_get "doi" d /\
        (dict_get "doi" d = None -> d' = d) /\
        (forall doi,
            dict_get "doi" d = Some doi ->
            dict_get "doi_url" d'
            = Some (_get_url_from_doi (offline "a.bib" EmptyString) doi) /\
            dict_get "url" d'
            = Some (_get_url_from_doi (offline "a.bib" EmptyString) doi)).
Proof.
  apply (add_urls_from_doi_postcondition (offline "a.bib" EmptyString)
           (set_parsed_entries (init "a.bib")
              [Some [("doi", VStr "10.1/x")]; Some [("title", VStr "T")]])).
  repeat constructor; discriminate.
Defined.
